(** * QAHA: the Qur'anic Artificial Hermeneutics Archive viewer

    A shallow embedding of [quran_interpretations_app.py]: the loader
    [load_all_data] (fetch every CSV, tag, concatenate, normalise) and the
    view [main] (sidebar selections, filter, shared Arabic header, one
    section per model), followed by the properties of the two.

    - Text is a [string] of bytes (UTF-8).  What Python and pandas do to
      text ([str.strip], [str.lower], reading a numeric literal, printing
      a float) is a class of operations, [Py.Runtime]; the properties hold
      for every instance, and [Ascii_runtime] is one to compute with.
    - A table is a pandas-like frame: column labels in order, possibly
      repeated, and rows of cells.  A cell is missing, a number or text.
      An integer is a [Z]; where numpy keeps it in 64 bits the wrap-around
      is written out ([Py.wrap64], [Py.float_to_int64]).  A finite float
      is the rational it stands for, and an integer that enters a float64
      column is rounded to 53 significant bits ([Py.to_float64]).
    - The network, together with [requests.get], [raise_for_status] and
      [pd.read_csv], is a function from the URL to an error text or a
      parsed table.  The person at the sidebar is a record of functions
      from the options of a widget to its value.
    - The script is a program in a small monad over the session: the URLs
      requested so far, the page drawn so far and the entry of
      [st.cache_data].  A piece of script returns, stops ([st.stop]) or
      raises.
    - The view sorts and compares the chapter and verse columns as
      integers and the model column as text, which is what the loader
      leaves in them (section Models below); on a frame that holds
      anything else there the model raises [TypeError]. *)

From Stdlib Require Import ZArith QArith Qabs Qround String Ascii DecimalString.
From stdpp Require Import base list strings gmap sorting.

(** ** Python values *)

Module Py.

(** Numbers as pandas holds them in a column: an integer ([int64] or
    [uint64] in a column of integers, a Python [int] in a column of
    objects), a finite [float64], given by the rational it stands for, or
    an infinity. *)
Inductive number :=
| Int (z : Z)
| Float (q : Q)
| Inf (negative : bool).

(** The range of [int64], and what a cast to [int64] makes of an integer
    kept in 64 bits: its two's complement value. *)
Definition int64 (z : Z) : Prop := (- 2 ^ 63 ≤ z < 2 ^ 63)%Z.

#[global] Instance int64_dec (z : Z) : Decision (int64 z).
Proof. unfold int64. apply _. Defined.

Definition wrap64 (z : Z) : Z := ((z + 2 ^ 63) mod 2 ^ 64 - 2 ^ 63)%Z.

(** The integer of at most 53 significant bits nearest to [a], for
    [0 ≤ a]; a tie goes to the even one. *)
Definition round53 (a : Z) : Z :=
  if (a <? 2 ^ 53)%Z then a else
  let e := (Z.log2 a - 52)%Z in
  let m := Z.shiftr a e in
  let r := Z.land a (Z.ones e) in
  let half := (2 ^ (e - 1))%Z in
  let m := if (half <? r)%Z || ((r =? half)%Z && Z.odd m) then (m + 1)%Z else m in
  Z.shiftl m e.

(** An integer as [float64]: exact up to 2^53, rounded to the nearest
    float beyond.  (Integers in a column are 64 bits wide at most, far
    below the largest float.) *)
Definition to_float64 (z : Z) : Q := inject_Z (Z.sgn z * round53 (Z.abs z)).

(** The operations of the Python runtime and of pandas that the program
    calls on text and whose definitions lie outside the repository:
    [str.strip], [str.lower], the reader of numeric literals behind
    [pd.to_numeric] ([None] when the text is no number, or spells a NaN)
    and [str] on a float.  Of what they compute only this is used: trimming
    the empty text leaves it empty. *)
Class Runtime := {
  strip : string → string;
  lower : string → string;
  parse_numeric : string → option number;
  float_repr : Q → string;
  strip_empty : strip "" = "";
}.

(** [str(n)] on an integer. *)
Definition int_repr (z : Z) : string := NilZero.string_of_int (Z.to_int z).

(** [str(x)] on a number. *)
Definition number_repr `{Runtime} (n : number) : string :=
  match n with
  | Int z => int_repr z
  | Float q => float_repr q
  | Inf false => "inf"
  | Inf true => "-inf"
  end.

Definition endswith (s suffix : string) : bool :=
  let n := String.length s in
  let k := String.length suffix in
  bool_decide (k ≤ n)%nat && String.eqb (substring (n - k) k s) suffix.

(** [s.removesuffix(suffix)]. *)
Definition removesuffix (s suffix : string) : string :=
  if negb (String.eqb suffix "") && endswith s suffix
  then substring 0 (String.length s - String.length suffix) s
  else s.

(** [int(x)] on a finite float: the fraction is cut off, towards zero. *)
Definition truncate (q : Q) : Z := Z.quot (Qnum q) (Z.pos (Qden q)).

(** The cast of a finite [float64] to [int64]: the truncated value when
    it is in range.  Out of range C leaves the conversion undefined; the
    value here is the one x86-64 gives, the least [int64]. *)
Definition float_to_int64 (q : Q) : Z :=
  if decide (int64 (truncate q)) then truncate q else (- 2 ^ 63)%Z.

End Py.

(** ** An ASCII instance of the runtime

    An instance to evaluate the program on plain inputs; it is not the
    runtime of Python.  It trims ASCII white space and lowers ASCII
    capitals, where Python goes by Unicode.  It reads literals of the
    shape [sign? digits (. digits)? (e sign? digits)?] and the words
    [inf] and [infinity]; a literal with a point or an exponent stands
    for the decimal fraction it spells, where numpy has the [float64]
    nearest to it, and is printed back in full.  The two agree on text
    in ASCII and on literals of up to 15 significant digits that are not
    within rounding of an integer; the worked inputs are of that kind. *)

Module Ascii_runtime.

Definition isspace (c : ascii) : bool :=
  let n := nat_of_ascii c in
  bool_decide (n = 32 ∨ (9 ≤ n ∧ n ≤ 13) ∨ (28 ≤ n ∧ n ≤ 31))%nat.

Fixpoint lstrip (s : string) : string :=
  match s with
  | String c s' => if isspace c then lstrip s' else s
  | EmptyString => EmptyString
  end.

Definition strip (s : string) : string :=
  String.rev (lstrip (String.rev (lstrip s))).

Definition lower_char (c : ascii) : ascii :=
  let n := nat_of_ascii c in
  if bool_decide (65 ≤ n ∧ n ≤ 90)%nat then ascii_of_nat (n + 32) else c.

Fixpoint lower (s : string) : string :=
  match s with
  | String c s' => String (lower_char c) (lower s')
  | EmptyString => EmptyString
  end.

Definition digit (c : ascii) : option Z :=
  let n := nat_of_ascii c in
  if bool_decide (48 ≤ n ∧ n ≤ 57)%nat then Some (Z.of_nat (n - 48)) else None.

(** Reads the digits of [s] onto [acc]; [None] on any other character. *)
Fixpoint digits (acc : Z) (s : string) : option Z :=
  match s with
  | EmptyString => Some acc
  | String c s' =>
      match digit c with
      | Some d => digits (10 * acc + d)%Z s'
      | None => None
      end
  end.

(** Splits [s] at its first full stop. *)
Fixpoint split_point (s : string) : string * option string :=
  match s with
  | EmptyString => (EmptyString, None)
  | String c s' =>
      if Ascii.eqb c "."%char then (EmptyString, Some s')
      else let '(a, b) := split_point s' in (String c a, b)
  end.

(** Splits [s] at its first [e] or [E]. *)
Fixpoint split_exponent (s : string) : string * option string :=
  match s with
  | EmptyString => (EmptyString, None)
  | String c s' =>
      if Ascii.eqb c "e"%char || Ascii.eqb c "E"%char then (EmptyString, Some s')
      else let '(a, b) := split_exponent s' in (String c a, b)
  end.

(** [digits (. digits)?] as a numerator over a power of ten, and whether
    there is a point. *)
Definition decimal (s : string) : option (Z * positive * bool) :=
  match split_point s with
  | (whole, None) =>
      if String.eqb whole "" then None
      else n ← digits 0 whole; Some (n, 1%positive, false)
  | (whole, Some frac) =>
      if String.eqb whole "" && String.eqb frac "" then None else
      w ← digits 0 whole;
      f ← digits 0 frac;
      let scale := (10 ^ Z.of_nat (String.length frac))%Z in
      Some ((w * scale + f)%Z, Z.to_pos scale, true)
  end.

(** [sign? digits], the exponent of a literal. *)
Definition exponent (s : string) : option Z :=
  match s with
  | String "-" s' => if String.eqb s' "" then None else Z.opp <$> digits 0 s'
  | String "+" s' => if String.eqb s' "" then None else digits 0 s'
  | _ => if String.eqb s "" then None else digits 0 s
  end.

(** An integer literal is an integer while 64 bits hold it, and a float
    beyond. *)
Definition integer (z : Z) : Py.number :=
  if decide (- 2 ^ 63 ≤ z < 2 ^ 64)%Z then Py.Int z
  else Py.Float (Py.to_float64 z).

Definition unsigned_literal (s : string) : option Py.number :=
  let word := lower s in
  if String.eqb word "inf" || String.eqb word "infinity" then Some (Py.Inf false)
  else
    let '(mantissa, e) := split_exponent s in
    '(n, scale, point) ← decimal mantissa;
    match e with
    | None => Some (if point : bool then Py.Float (Qmake n scale) else integer n)
    | Some e =>
        k ← exponent e;
        Some (Py.Float (if (0 <=? k)%Z then Qmake (n * 10 ^ k) scale
                        else Qmake n (scale * Z.to_pos (10 ^ (- k)))))
    end.

Definition negate (n : Py.number) : Py.number :=
  match n with
  | Py.Int z => integer (- z)
  | Py.Float q => Py.Float (Qopp q)
  | Py.Inf b => Py.Inf (negb b)
  end.

Definition parse_numeric (s : string) : option Py.number :=
  match strip s with
  | String "-" s' => negate <$> unsigned_literal s'
  | String "+" s' => unsigned_literal s'
  | s' => unsigned_literal s'
  end.

(** The decimal expansion of the fraction [r / d], at most [fuel] places. *)
Fixpoint places (fuel : nat) (r d : Z) : string :=
  match fuel with
  | O => EmptyString
  | S fuel' =>
      let r10 := (10 * r)%Z in
      let rest := (r10 mod d)%Z in
      Py.int_repr (r10 / d) +:+
        (if Z.eqb rest 0 then EmptyString else places fuel' rest d)
  end.

Definition float_repr (q : Q) : string :=
  let d := Z.pos (Qden q) in
  let a := Z.abs (Qnum q) in
  (if Z.ltb (Qnum q) 0 then "-" else "") +:+
    Py.int_repr (a / d) +:+ "." +:+ places 17 (a mod d) d.

Definition runtime : Py.Runtime :=
  {| Py.strip := strip;
     Py.lower := lower;
     Py.parse_numeric := parse_numeric;
     Py.float_repr := float_repr;
     Py.strip_empty := eq_refl |}.

End Ascii_runtime.

(** ** The part of pandas the program uses *)

Module Pandas.
Import Py.

(** A value in a table: missing, a number, or text. *)
Inductive cell :=
| NaN
| Num (n : number)
| Str (s : string).

(** A table: the column labels, in order and possibly repeated, and the
    rows, each a list of cells in column order. *)
Record DataFrame := {
  columns : list string;
  rows : list (list cell);
}.

(** What Python raises in the paths the program can take. *)
Inductive exn :=
| KeyError (label : string)
| TypeError
| ValueError
| AttributeError
| IntCastingNaNError.

Definition cell_at (i : nat) (row : list cell) : cell := default NaN (row !! i).

Definition isna (c : cell) : bool :=
  match c with NaN => true | _ => false end.

Definition notna (c : cell) : bool := negb (isna c).

(** The positions at which [label] occurs among the column labels. *)
Definition positions (label : string) (cols : list string) : list nat :=
  omap id (imap (λ i c, if decide (c = label) then Some i else None) cols).

(** [df[label]]: a [KeyError] when no column has the label, a series when
    one has, a frame when several have. *)
Inductive selection :=
| Missing
| Single (i : nat)
| Several (at_ : list nat).

Definition locate (label : string) (cols : list string) : selection :=
  match positions label cols with
  | [] => Missing
  | [i] => Single i
  | at_ => Several at_
  end.

(** [df[label] = value] with a scalar: overwrites the column when the
    label exists, appends a column otherwise. *)
Definition assign (label : string) (v : cell) (df : DataFrame) : DataFrame :=
  match positions label (columns df) with
  | [] => {| columns := columns df ++ [label];
             rows := (λ r, r ++ [v]) <$> rows df |}
  | at_ => {| columns := columns df;
              rows := (λ r, foldr (λ i r', <[i:=v]> r') r at_) <$> rows df |}
  end.

(** The distinct elements of a list, in order of first appearance
    ([Series.unique], and the label union of [pd.concat]). *)
Fixpoint unique `{EqDecision A} (l : list A) : list A :=
  match l with
  | [] => []
  | x :: l' => x :: filter (λ y, y ≠ x) (unique l')
  end.

(** The rows of [df] laid out on [labels]: a label [df] does not have
    reads as missing. *)
Definition reindex (labels : list string) (df : DataFrame) : list (list cell) :=
  (λ r, (λ c, match positions c (columns df) with
              | i :: _ => cell_at i r
              | [] => NaN
              end) <$> labels) <$> rows df.

(** What numpy holds a column in.  The values of a column are of one
    dtype: [int64] when all are integers of that range, [uint64] when all
    are integers from 0 to 2^64 - 1, [object] when one of them is text,
    [float64] otherwise, and then its integers are floats. *)
Definition is_int64 (c : cell) : bool :=
  match c with Num (Int z) => bool_decide (int64 z) | _ => false end.

Definition is_uint64 (c : cell) : bool :=
  match c with Num (Int z) => bool_decide (0 ≤ z < 2 ^ 64)%Z | _ => false end.

Definition is_text (c : cell) : bool :=
  match c with Str _ => true | _ => false end.

Definition integral (values : list cell) : bool :=
  forallb is_int64 values || forallb is_uint64 values.

(** [.astype("float64")] on one value of a numeric column. *)
Definition upcast (c : cell) : cell :=
  match c with Num (Int z) => Num (Float (to_float64 z)) | _ => c end.

(** Whether the pieces of a column, one of them [lacking] when a frame
    has no column of the label, concatenate to [float64]; they keep their
    values as they are when the result is a column of integers or of
    objects. *)
Definition floats (lacking : bool) (values : list cell) : bool :=
  negb (existsb is_text values) && (lacking || negb (integral values)).

(** [pd.concat(frames, ignore_index=True)]: the union of the labels in
    order of first appearance, the rows of the frames one after the
    other, every column in the common dtype of its pieces. *)
Definition concat (frames : list DataFrame) : DataFrame :=
  let labels := unique (mjoin (columns <$> frames)) in
  let laid := mjoin (reindex labels <$> frames) in
  let float64 :=
    imap (λ j label,
            floats (existsb (λ df, bool_decide (label ∉ columns df)) frames)
                   (cell_at j <$> laid))
         labels in
  {| columns := labels;
     rows := (λ r, zip_with (λ (fl : bool) c, if fl then upcast c else c)
                     float64 r) <$> laid |}.

(** [pd.to_numeric(_, errors="coerce")] on one value. *)
Definition to_numeric `{Runtime} (c : cell) : cell :=
  match c with
  | Str s => match parse_numeric s with
             | Some n => Num n
             | None => NaN
             end
  | _ => c
  end.

(** [.astype(int)] on one value of a numeric column, a cast to [int64]:
    an integer of 64 bits keeps its bits, a finite float is truncated, a
    missing value or an infinity raises. *)
Definition astype_int (c : cell) : option cell :=
  match c with
  | Num (Int z) => Some (Num (Int (wrap64 z)))
  | Num (Float q) => Some (Num (Int (float_to_int64 q)))
  | _ => None
  end.

(** Column [i] rewritten value by value. *)
Definition map_column (f : cell → cell) (i : nat) (df : DataFrame) : DataFrame :=
  {| columns := columns df;
     rows := (λ r, <[i := f (cell_at i r)]> r) <$> rows df |}.

Definition try_map_column (f : cell → option cell) (i : nat) (df : DataFrame)
  : option DataFrame :=
  rows' ← mapM (λ r, c ← f (cell_at i r); Some (<[i := c]> r)) (rows df);
  Some {| columns := columns df; rows := rows' |}.

(** [df[label] = pd.to_numeric(df[label], errors="coerce")], the column
    given by position: every value is read, and the column is [float64]
    unless all of them came out as integers. *)
Definition numeric_column `{Runtime} (i : nat) (df : DataFrame) : DataFrame :=
  let coerced := map_column to_numeric i df in
  if integral (cell_at i <$> rows coerced) then coerced
  else map_column upcast i coerced.

(** [df.dropna(subset=...)], the subset given by position. *)
Definition dropna (subset : list nat) (df : DataFrame) : DataFrame :=
  {| columns := columns df;
     rows := filter (λ r, forallb (λ i, notna (cell_at i r)) subset) (rows df) |}.

(** [series == value] on one element, for an integer (or [None]). *)
Definition eq_scalar (c : cell) (v : option Z) : bool :=
  match c, v with
  | Num (Int z), Some x => bool_decide (z = x)
  | Num (Float q), Some x => Qeq_bool q (inject_Z x)
  | _, _ => false
  end.

(** [series.isin(values)] on one element, for a list of text. *)
Definition isin (c : cell) (values : list string) : bool :=
  match c with
  | Str s => bool_decide (s ∈ values)
  | _ => false
  end.

(** [df.loc[mask]], the mask given row by row. *)
Definition loc (mask : list cell → bool) (df : DataFrame) : DataFrame :=
  {| columns := columns df; rows := filter (λ r, mask r) (rows df) |}.

Definition as_int (c : cell) : option Z :=
  match c with Num (Int z) => Some z | _ => None end.

Definition as_text (c : cell) : option string :=
  match c with Str s => Some s | _ => None end.

(** The order [sort_values] puts the rows of a text column in. *)
Definition by_text (i : nat) (r1 r2 : list cell) : Prop :=
  String.le (default "" (as_text (cell_at i r1)))
            (default "" (as_text (cell_at i r2))).

Definition by_text_dec (i : nat) : RelDecision (by_text i) :=
  λ r1 r2, decide (String.le _ _).

(** Sorting by insertion: an element goes in front of the first one it
    is not above, so elements of equal key keep their order. *)
Fixpoint insert_sorted {A : Type} (R : relation A) `{!RelDecision R}
    (x : A) (l : list A) : list A :=
  match l with
  | [] => [x]
  | y :: l' => if decide (R x y) then x :: l else y :: insert_sorted R x l'
  end.

Definition insertion_sort {A : Type} (R : relation A) `{!RelDecision R}
    (l : list A) : list A :=
  foldr (insert_sorted R) [] l.

(** [df.sort_values(label)] on a column of text, the column given by
    position; [None] when the column holds anything else (the view sorts
    nothing but the model names).  pandas sorts with numpy's quicksort and
    promises no order among rows of equal key; numpy sorts short inputs
    by insertion, which leaves such rows in table order, and that is the
    order they have here. *)
Definition sort_values (i : nat) (df : DataFrame) : option DataFrame :=
  if forallb (λ r, bool_decide (is_Some (as_text (cell_at i r)))) (rows df)
  then Some {| columns := columns df;
               rows := @insertion_sort _ (by_text i) (by_text_dec i) (rows df) |}
  else None.

End Pandas.

(** ** The part of Streamlit and of the network the program uses *)

Module Streamlit.
Import Pandas.

(** What the script puts on the page, in the order it does. *)
Inductive element :=
| PageConfig (page_title page_icon layout : string)
| Title (body : string)
| Markdown (body : string) (unsafe_allow_html : bool)
| Subheader (body : string)
| Error (body : string)
| Warning (body : string)
| Info (body : string)
| Expander (label : string)
| SidebarHeader (body : string)
| SidebarSelectbox (label : string) (options : list string)
| SidebarCheckbox (label : string) (value : bool)
| SidebarMultiselect (label : string) (options default : list string).

(** The state a run of the script works on: the URLs requested so far,
    the page so far, and the entry [st.cache_data] keeps for
    [load_all_data] (a function of no argument has one entry). *)
Record session := {
  requests : list string;
  screen : list element;
  cache : option (DataFrame * list string);
}.

(** How a piece of the script ends: with a value, by [st.stop()], or with
    an exception nobody catches. *)
Inductive outcome (A : Type) :=
| Done (a : A)
| Stopped
| Raised (e : exn).
Arguments Done {A} a.
Arguments Stopped {A}.
Arguments Raised {A} e.

Definition script (A : Type) : Type := session → outcome A * session.

#[global] Instance script_ret : MRet script := λ A a s, (Done a, s).

#[global] Instance script_bind : MBind script := λ A B f m s,
  match m s with
  | (Done a, s') => f a s'
  | (Stopped, s') => (Stopped, s')
  | (Raised e, s') => (Raised e, s')
  end.

Definition draw (e : element) : script () := λ s,
  (Done (), {| requests := requests s;
               screen := screen s ++ [e];
               cache := cache s |}).

Definition stop {A} : script A := λ s, (Stopped, s).

Definition raise {A} (e : exn) : script A := λ s, (Raised e, s).

Definition or_raise {A} (e : exn) (o : option A) : script A :=
  match o with Some a => mret a | None => raise e end.

(** [for x in l: body], the body working on an accumulator. *)
Fixpoint for_fold {A B} (body : A → B → script B) (l : list A) (acc : B)
  : script B :=
  match l with
  | [] => mret acc
  | x :: l' => acc' ← body x acc; for_fold body l' acc'
  end.

Definition for_each {A} (body : A → script ()) (l : list A) : script () :=
  for_fold (λ x _, body x) l ().

(** What [requests.get], [raise_for_status] and [pd.read_csv(...,
    index_col=0)] make of a URL: an exception with its text, or the
    parsed table (the index column is not among its columns). *)
Inductive response :=
| Failed (description : string)
| Parsed (table : DataFrame).

Definition network := string → response.

Definition fetch (net : network) (url : string) : script response := λ s,
  (Done (net url), {| requests := requests s ++ [url];
                      screen := screen s;
                      cache := cache s |}).

(** [@st.cache_data]: a stored result is handed back without running the
    function; a result is stored only when the function returns. *)
Definition cache_data (f : script (DataFrame * list string))
  : script (DataFrame * list string) := λ s,
  match cache s with
  | Some v => (Done v, s)
  | None =>
      match f s with
      | (Done v, s') => (Done v, {| requests := requests s';
                                    screen := screen s';
                                    cache := Some v |})
      | other => other
      end
  end.

(** What the person at the sidebar answers: a select box gives one of
    its options ([None] when it has none), a check box a boolean, a
    multi-select some of its options. *)
Record user := {
  selectbox : string → list Z → option Z;
  checkbox : string → bool → bool;
  multiselect : string → list string → list string → list string;
}.

Definition sidebar_selectbox (usr : user) (label : string) (options : list Z)
    (format_func : Z → string) : script (option Z) :=
  draw (SidebarSelectbox label (format_func <$> options));;
  mret (selectbox usr label options).

Definition sidebar_checkbox (usr : user) (label : string) (value : bool)
  : script bool :=
  draw (SidebarCheckbox label value);;
  mret (checkbox usr label value).

Definition sidebar_multiselect (usr : user) (label : string)
    (options default : list string) : script (list string) :=
  draw (SidebarMultiselect label options default);;
  mret (multiselect usr label options default).

End Streamlit.

(** ** The program *)

Import Py Pandas Streamlit.

Definition REPO_BASE : string :=
  "https://raw.githubusercontent.com/jsnhum/LLM.-Qur-an-translation/main".

Definition CSV_FILES : list string := [
  "Claude_haiku.csv";
  "Claude_opus.csv";
  "Claude_sonnet.csv";
  "Claude_sonnet_3.5.csv";
  "GPT3.csv";
  "GPT4Turbo.csv";
  "GPT4o.csv";
  "GPT4oMini.csv";
  "Grok2.csv";
  "Llama2.csv";
  "Llama3.csv";
  "Mixtral.csv";
  "gemini_1.5_flash.csv";
  "gemini_1.5_pro.csv";
  "gemini_2.0_flash.csv"
].

Definition MODEL_DISPLAY_NAMES : gmap string string := list_to_map [
  ("Claude_haiku", "Claude Haiku");
  ("Claude_opus", "Claude Opus");
  ("Claude_sonnet", "Claude Sonnet");
  ("Claude_sonnet_3.5", "Claude Sonnet 3.5");
  ("GPT3", "GPT-3");
  ("GPT4Turbo", "GPT-4 Turbo");
  ("GPT4o", "GPT-4o");
  ("GPT4oMini", "GPT-4o Mini");
  ("Grok2", "Grok 2");
  ("Llama2", "Llama 2");
  ("Llama3", "Llama 3");
  ("Mixtral", "Mixtral");
  ("gemini_1.5_flash", "Gemini 1.5 Flash");
  ("gemini_1.5_pro", "Gemini 1.5 Pro");
  ("gemini_2.0_flash", "Gemini 2.0 Flash")
].

(** The double quote and the line feed, for the text the page shows. *)
Definition dquote : string := String "034"%char EmptyString.
Definition newline : string := String "010"%char EmptyString.

(** The paragraph of lines 161-163 around the Arabic text. *)
Definition arabic_paragraph (arabic_text : string) : string :=
  "<p style=" +:+ dquote +:+ "text-align:right; font-size:1.6rem; "
    +:+ "font-family:serif; line-height:2.2;" +:+ dquote
    +:+ " dir=" +:+ dquote +:+ "rtl" +:+ dquote +:+ ">"
    +:+ arabic_text +:+ "</p>".

(** The text of lines 93-97 under the title. *)
Definition introduction : string :=
  "Compare how different Large Language Models translate and interpret "
    +:+ "verses of the Qur'an.  " +:+ newline
    +:+ "Data source: "
    +:+ "[jsnhum/LLM.-Qur-an-translation]"
    +:+ "(https://github.com/jsnhum/LLM.-Qur-an-translation)".

(** [str(x)] on the value of a cell. *)
Definition str `{Runtime} (c : cell) : string :=
  match c with
  | NaN => "nan"
  | Num n => number_repr n
  | Str s => s
  end.

Section Program.
Context `{Runtime} (net : network) (usr : user).

(** *** [load_all_data], lines 45-81 *)

Definition url_of (filename : string) : string :=
  REPO_BASE +:+ "/" +:+ filename.

Definition display_name_of (filename : string) : string :=
  let model_key := removesuffix filename ".csv" in
  default model_key (MODEL_DISPLAY_NAMES !! model_key).

(** One turn of the loop of lines 51-63 on [frames] and [errors]; the
    [try] covers the request, the status check and the parse. *)
Definition load_one (filename : string) (acc : list DataFrame * list string)
  : script (list DataFrame * list string) :=
  let '(frames, errors) := acc in
  let url := url_of filename in
  let display_name := display_name_of filename in
  resp ← fetch net url;
  match resp with
  | Parsed df =>
      let df := assign "Model" (Str display_name) df in
      mret (frames ++ [df], errors)
  | Failed e =>
      mret (frames, errors ++ [display_name +:+ ": " +:+ e])
  end.

(** [combined[label]] handed to [pd.to_numeric]: a series is wanted. *)
Definition numeric_series (label : string) (df : DataFrame) : script nat :=
  match locate label (columns df) with
  | Single i => mret i
  | Missing => raise (KeyError label)
  | Several _ => raise TypeError
  end.

(** Lines 69-81: concatenate, normalise the labels, coerce [chapter] and
    [verse], drop the rows that miss either, cast both to integers. *)
Definition normalise (frames : list DataFrame) : script DataFrame :=
  let combined := concat frames in
  let combined := {| columns := (λ c, lower (strip c)) <$> columns combined;
                     rows := rows combined |} in
  ic ← numeric_series "chapter" combined;
  let combined := numeric_column ic combined in
  iv ← numeric_series "verse" combined;
  let combined := numeric_column iv combined in
  let combined := dropna [ic; iv] combined in
  combined ← or_raise IntCastingNaNError (try_map_column astype_int ic combined);
  combined ← or_raise IntCastingNaNError (try_map_column astype_int iv combined);
  mret combined.

(** The function under the decorator, reading its files from [files]. *)
Definition load_from (files : list string) : script (DataFrame * list string) :=
  '(frames, errors) ← for_fold load_one files ([], []);
  match frames with
  | [] =>
      draw (Error "Failed to load any data. Check your internet connection.");;
      stop
  | _ =>
      combined ← normalise frames;
      mret (combined, errors)
  end.

Definition load_all_data : script (DataFrame * list string) :=
  cache_data (load_from CSV_FILES).

(** *** [main], lines 84-187 *)

(** [data[label]] where the view goes on with a method of the series. *)
Definition series (label : string) (df : DataFrame) : script nat :=
  match locate label (columns df) with
  | Single i => mret i
  | Missing => raise (KeyError label)
  | Several _ => raise AttributeError
  end.

(** [sorted(values.unique())] on integers and on text; text compares
    byte by byte, which on UTF-8 is the order of the code points. *)
Definition sorted_unique_int (l : list Z) : list Z := merge_sort Z.le (unique l).
Definition sorted_unique_text (l : list string) : list string :=
  merge_sort String.le (unique l).

(** Lines 150-155: the mask, row by row, and the rows it keeps.  The
    three columns are given by position. *)
Definition mask (ic iv im : nat) (selected_chapter selected_verse : option Z)
    (selected_models : list string) (row : list cell) : bool :=
  eq_scalar (cell_at ic row) selected_chapter
  && eq_scalar (cell_at iv row) selected_verse
  && isin (cell_at im row) selected_models.

Definition verse_data (data : DataFrame) (ic iv im : nat)
    (selected_chapter selected_verse : option Z) (selected_models : list string)
  : DataFrame :=
  loc (mask ic iv im selected_chapter selected_verse selected_models) data.

(** Lines 158-166: the Arabic original, once, and a rule under it. *)
Definition arabic_header (verse_data : DataFrame) : script () :=
  match locate "orig" (columns verse_data) with
  | Missing => mret ()
  | Single i =>
      match filter (λ c, notna c) (cell_at i <$> rows verse_data) with
      | [] => mret ()
      | first :: _ =>
          arabic_text ← match first with
                        | Str s => mret (strip s)
                        | _ => raise AttributeError
                        end;
          draw (Markdown (arabic_paragraph arabic_text) true);;
          draw (Markdown "---" false)
      end
  | Several at_ =>
      (* a frame: [dropna] keeps the rows with no missing value, and the
         first of them, a series, has no [strip] *)
      if existsb (λ r, forallb (λ i, notna (cell_at i r)) at_) (rows verse_data)
      then raise AttributeError
      else mret ()
  end.

(** [row.get(label, "")]: [None] stands for the series [get] gives back
    when the label is repeated. *)
Definition row_get (label : string) (cols : list string) (row : list cell)
  : option cell :=
  match locate label cols with
  | Missing => Some (Str "")
  | Single i => Some (cell_at i row)
  | Several _ => None
  end.

(** [pd.notna(x) and str(x).strip()] as a condition. *)
Definition shown (c : cell) : bool :=
  notna c && negb (String.eqb (strip (str c)) "").

(** Lines 172-187: the section of one row. *)
Definition model_section (cols : list string) (im : nat) (row : list cell)
  : script () :=
  let model_name := cell_at im row in
  draw (Markdown ("### " +:+ str model_name) false);;
  let translation := row_get "translation" cols row in
  let interpretation := row_get "interpretation" cols row in
  translation ← or_raise ValueError translation;
  (if shown translation then
     draw (Markdown "**Translation**" false);;
     draw (Markdown ("> " +:+ strip (str translation)) false)
   else mret ());;
  interpretation ← or_raise ValueError interpretation;
  (if shown interpretation then
     draw (Markdown "**Interpretation**" false);;
     draw (Markdown (strip (str interpretation)) false)
   else mret ());;
  draw (Markdown "---" false).

(** Lines 149-187, after the guard on the selection. *)
Definition show_verse (data : DataFrame) (ic iv im : nat)
    (selected_chapter selected_verse : option Z) (selected_models : list string)
  : script () :=
  let verse_data :=
    verse_data data ic iv im selected_chapter selected_verse selected_models in
  arabic_header verse_data;;
  draw (Subheader ("Surah " +:+ from_option int_repr "None" selected_chapter
                     +:+ ", Ayah " +:+ from_option int_repr "None" selected_verse));;
  sorted ← or_raise TypeError (sort_values im verse_data);
  for_each (model_section (columns sorted) im) (rows sorted).

(** The columns are looked up once, where the source first reads them;
    the values of [chapter] and [verse] are read as integers and those of
    [model] as text. *)
Definition main : script () :=
  draw (PageConfig "LLM Qur'an Translations" "📖" "wide");;
  draw (Title "QAHA-Qur'anic Artificial Hermeneutics Archive");;
  draw (Markdown introduction false);;
  (* load data *)
  '(data, load_errors) ← load_all_data;
  match load_errors with
  | [] => mret ()
  | _ =>
      draw (Expander (int_repr (Z.of_nat (length load_errors))
                        +:+ " model(s) failed to load"));;
      for_each (λ err, draw (Warning err)) load_errors
  end;;
  (* sidebar selectors *)
  draw (SidebarHeader "Select verse");;
  ic ← series "chapter" data;
  chapter_values ← or_raise TypeError (mapM (λ r, as_int (cell_at ic r)) (rows data));
  let chapters := sorted_unique_int chapter_values in
  selected_chapter ← sidebar_selectbox usr "Chapter (Surah)" chapters
                       (λ x, "Surah " +:+ int_repr x);
  iv ← series "verse" data;
  verse_values ← or_raise TypeError
                   (mapM (λ r, as_int (cell_at iv r))
                      (filter (λ r, eq_scalar (cell_at ic r) selected_chapter) (rows data)));
  let verses_in_chapter := sorted_unique_int verse_values in
  selected_verse ← sidebar_selectbox usr "Verse (Ayah)" verses_in_chapter
                     (λ x, "Ayah " +:+ int_repr x);
  (* model selector *)
  draw (SidebarHeader "Select models");;
  im ← series "model" data;
  model_values ← or_raise TypeError (mapM (λ r, as_text (cell_at im r)) (rows data));
  let all_models := sorted_unique_text model_values in
  select_all ← sidebar_checkbox usr "Select all models" true;
  selected_models ← (if (select_all : bool)
                      then sidebar_multiselect usr "Models" all_models all_models
                      else sidebar_multiselect usr "Models" all_models []);
  match selected_models with
  | [] => draw (Info "Please select at least one model from the sidebar.")
  | _ => show_verse data ic iv im selected_chapter selected_verse selected_models
  end.

End Program.

(** ** Sessions and pages the properties speak of *)

(** The session after the loop has requested [files]. *)
Definition requested (files : list string) (s : session) : session :=
  {| requests := requests s ++ (url_of <$> files);
     screen := screen s;
     cache := cache s |}.

(** The session after [elements] have been drawn. *)
Definition drawn (elements : list element) (s : session) : session :=
  {| requests := requests s;
     screen := screen s ++ elements;
     cache := cache s |}.

(** What [main] draws before it loads. *)
Definition page_head : list element :=
  [PageConfig "LLM Qur'an Translations" "📖" "wide";
   Title "QAHA-Qur'anic Artificial Hermeneutics Archive";
   Markdown introduction false].

Definition no_data : element :=
  Error "Failed to load any data. Check your internet connection.".

Definition no_selection : element :=
  Info "Please select at least one model from the sidebar.".

(** ** The loader read resource by resource and row by row

    What the properties below are stated with: the tables and the report
    the loop ends with, and the three steps of the normalisation on one
    row. *)

Section Reading.
Context `{Runtime} (net : network).

(** The tagged table of a resource the network answers with a table. *)
Definition parsed (filename : string) : option DataFrame :=
  match net (url_of filename) with
  | Parsed df => Some (assign "Model" (Str (display_name_of filename)) df)
  | Failed _ => None
  end.

(** The report entry of a resource the network fails on. *)
Definition failure (filename : string) : option string :=
  match net (url_of filename) with
  | Failed e => Some (display_name_of filename +:+ ": " +:+ e)
  | Parsed _ => None
  end.

Definition tagged (files : list string) : list DataFrame := omap parsed files.
Definition report (files : list string) : list string := omap failure files.

(** The merged table before any value is touched: labels normalised. *)
Definition merged (files : list string) : DataFrame :=
  {| columns := (λ c, lower (strip c)) <$> columns (concat (tagged files));
     rows := rows (concat (tagged files)) |}.

(** Whether column [i] of the rows is [float64] once [pd.to_numeric] has
    read it: it is unless every value came out as an integer. *)
Definition floating (i : nat) (table : list (list cell)) : bool :=
  negb (integral ((λ r, to_numeric (cell_at i r)) <$> table)).

(** [pd.to_numeric] on one value of a column that is, or is not,
    [float64] afterwards. *)
Definition coerce (float64 : bool) (c : cell) : cell :=
  if float64 then upcast (to_numeric c) else to_numeric c.

(** [pd.to_numeric] on the chapter and on the verse of a row; [fc] and
    [fv] say whether the two columns are [float64] afterwards. *)
Definition coerce_row (ic iv : nat) (fc fv : bool) (r : list cell) : list cell :=
  let r := <[ic := coerce fc (cell_at ic r)]> r in
  <[iv := coerce fv (cell_at iv r)]> r.

(** What [dropna] asks of a row. *)
Definition complete (ic iv : nat) (r : list cell) : bool :=
  forallb (λ i, notna (cell_at i r)) [ic; iv].

(** [astype(int)] on the chapter and on the verse of a row. *)
Definition cast_row (ic iv : nat) (r : list cell) : option (list cell) :=
  c ← astype_int (cell_at ic r);
  let r := <[ic := c]> r in
  v ← astype_int (cell_at iv r);
  Some (<[iv := v]> r).

(** [r'] is what reading and casting the chapter and the verse make of
    the row [r] of [table]. *)
Definition cast_of (ic iv : nat) (table : list (list cell)) (r r' : list cell)
  : Prop :=
  cast_row ic iv (coerce_row ic iv (floating ic table) (floating iv table) r)
  = Some r'.

End Reading.

(** A value [pd.to_numeric] makes nothing of: it is missing, or it is text
    that reads as no number. *)
Definition unreadable `{Runtime} (c : cell) : Prop :=
  c = NaN ∨ ∃ t, c = Str t ∧ parse_numeric t = None.

(** A value that is a number or reads as one, and a row whose chapter and
    verse both are: the rows the specification keeps. *)
Definition readable `{Runtime} (c : cell) : bool :=
  match c with
  | NaN => false
  | Num _ => true
  | Str t => bool_decide (is_Some (parse_numeric t))
  end.

Definition numbered `{Runtime} (ic iv : nat) (r : list cell) : bool :=
  readable (cell_at ic r) && readable (cell_at iv r).

(** A value that does not read as an infinity. *)
Definition finite `{Runtime} (c : cell) : bool :=
  match to_numeric c with Num (Inf _) => false | _ => true end.

(** Two values that are the same but for the dtype of their column: the
    second is the first, or the first as a [float64]. *)
Definition same_value (c c' : cell) : Prop := c' = c ∨ c' = upcast c.

(** The value of a row of a table under a label as the table spells it,
    and under the label that normalises to [label]: missing when the
    table has no such label. *)
Definition under (label : string) (df : DataFrame) (r : list cell) : cell :=
  match positions label (columns df) with
  | i :: _ => cell_at i r
  | [] => NaN
  end.

Definition entry `{Runtime} (label : string) (df : DataFrame) (r : list cell)
  : cell :=
  match positions label ((λ c, lower (strip c)) <$> columns df) with
  | i :: _ => cell_at i r
  | [] => NaN
  end.

(** The chapter, verse and model of a record, the columns given by
    position: an integer, an integer, a text. *)
Definition chapter (ic : nat) (r : list cell) : option Z := as_int (cell_at ic r).
Definition verse (iv : nat) (r : list cell) : option Z := as_int (cell_at iv r).
Definition model (im : nat) (r : list cell) : option string := as_text (cell_at im r).

(** The records the selection stage is to return, and the order it is to
    return them in. *)
Definition selected (ic iv im : nat) (ch vs : Z) (models : list string)
    (r : list cell) : Prop :=
  chapter ic r = Some ch ∧ verse iv r = Some vs
  ∧ ∃ m, model im r = Some m ∧ m ∈ models.

#[global] Instance selected_dec (ic iv im : nat) (ch vs : Z)
    (models : list string) (r : list cell) :
  Decision (selected ic iv im ch vs models r).
Proof.
  unfold selected.
  destruct (model im r) as [m|].
  - destruct (decide (chapter ic r = Some ch ∧ verse iv r = Some vs ∧ m ∈ models))
      as [Hyes|Hno].
    + left. destruct Hyes as (? & ? & ?). eauto.
    + right. intros (? & ? & m' & [= <-] & ?). apply Hno. auto.
  - right. intros (_ & _ & m & Hm & _). discriminate.
Defined.

Definition by_model (im : nat) (r1 r2 : list cell) : Prop :=
  ∃ m1 m2, model im r1 = Some m1 ∧ model im r2 = Some m2 ∧ String.le m1 m2.

(** A field of a record as the presenter is specified: absent unless one
    column has the label. *)
Definition field (label : string) (cols : list string) (row : list cell)
  : option cell :=
  match locate label cols with
  | Single i => Some (cell_at i row)
  | _ => None
  end.

(** The trimmed text of a field that is present and not blank. *)
Definition nonblank `{Runtime} (o : option cell) : option string :=
  match o with
  | None | Some NaN => None
  | Some c => if decide (strip (str c) = "") then None else Some (strip (str c))
  end.

(** The section of a record as the presenter is specified: the heading, a
    labelled quoted block for a translation that is there, a labelled
    block for an interpretation that is there, and the rule. *)
Definition section_of `{Runtime} (cols : list string) (im : nat)
    (row : list cell) : list element :=
  [Markdown ("### " +:+ str (cell_at im row)) false]
  ++ match nonblank (field "translation" cols row) with
     | Some t => [Markdown "**Translation**" false; Markdown ("> " +:+ t) false]
     | None => []
     end
  ++ match nonblank (field "interpretation" cols row) with
     | Some t => [Markdown "**Interpretation**" false; Markdown t false]
     | None => []
     end
  ++ [Markdown "---" false].

(** The heading line of the verse, line 168. *)
Definition verse_heading (selected_chapter selected_verse : option Z) : element :=
  Subheader ("Surah " +:+ from_option int_repr "None" selected_chapter
               +:+ ", Ayah " +:+ from_option int_repr "None" selected_verse).

(** An element of a model's section: markdown, no HTML. *)
Definition plain (e : element) : Prop := ∃ body, e = Markdown body false.

(** What the display of a verse is made of: markdown and the heading of
    the verse. *)
Definition verse_output (e : element) : Prop :=
  match e with
  | Markdown _ _ | Subheader _ => True
  | _ => False
  end.

(** A piece of script that draws nothing of a verse, whatever it ends
    with, and whose value, when it has one, satisfies [Q]. *)
Definition quiet {A : Type} (Q : A → Prop) (m : script A) : Prop :=
  ∀ s out s', m s = (out, s') →
    (∃ page, screen s' = screen s ++ page
             ∧ Forall (λ e, ¬ verse_output e) page)
    ∧ ∀ a, out = Done a → Q a.

(** A piece of script that draws nothing of a verse and, when it runs to
    its end, has drawn the prompt for a selection last. *)
Definition prompts (m : script ()) : Prop :=
  ∀ s out s', m s = (out, s') →
    ∃ page, screen s' = screen s ++ page
            ∧ Forall (λ e, ¬ verse_output e) page
            ∧ (out = Done () → ∃ before, page = before ++ [no_selection]).

(** The shared header with the rule under it. *)
Definition header_of (arabic_text : string) : list element :=
  [Markdown (arabic_paragraph arabic_text) true; Markdown "---" false].

(** The numbering the specification asks of a corpus: every chapter and
    every verse a positive integer. *)
Definition numbered_from_one (data : DataFrame) (ic iv : nat) : Prop :=
  Forall (λ r, ∃ c v, chapter ic r = Some c ∧ verse iv r = Some v
                      ∧ (0 < c)%Z ∧ (0 < v)%Z) (rows data).

(** A corpus as the view reads it: one column labelled [chapter], one
    [verse], one [model], at the positions given, holding integers,
    integers and text. *)
Record Corpus (data : DataFrame) (ic iv im : nat) : Prop := {
  chapter_at : locate "chapter" (columns data) = Single ic;
  verse_at : locate "verse" (columns data) = Single iv;
  model_at : locate "model" (columns data) = Single im;
  typed : Forall (λ r, is_Some (chapter ic r) ∧ is_Some (verse iv r)
                       ∧ is_Some (model im r)) (rows data);
}.

(** ** The sidebar and the page the further properties speak of *)

(** The three choice sets of the sidebar, lines 111, 118-120 and 130. *)
Definition chapters_of (data : DataFrame) (ic : nat) : list Z :=
  sorted_unique_int (omap (chapter ic) (rows data)).

Definition verses_of (data : DataFrame) (ic iv : nat)
    (selected_chapter : option Z) : list Z :=
  sorted_unique_int
    (omap (verse iv)
       (filter (λ r, eq_scalar (cell_at ic r) selected_chapter) (rows data))).

Definition models_of (data : DataFrame) (im : nat) : list string :=
  sorted_unique_text (omap (model im) (rows data)).

(** What the person answers to the widgets of a corpus. *)
Definition answered_chapter (usr : user) (data : DataFrame) (ic : nat) : option Z :=
  selectbox usr "Chapter (Surah)" (chapters_of data ic).

Definition answered_verse (usr : user) (data : DataFrame) (ic iv : nat)
  : option Z :=
  selectbox usr "Verse (Ayah)"
    (verses_of data ic iv (answered_chapter usr data ic)).

Definition offered_default (usr : user) (data : DataFrame) (im : nat)
  : list string :=
  if checkbox usr "Select all models" true then models_of data im else [].

Definition answered_models (usr : user) (data : DataFrame) (im : nat)
  : list string :=
  multiselect usr "Models" (models_of data im) (offered_default usr data im).

(** The expander of lines 103-106 with its warnings. *)
Definition load_warnings (errors : list string) : list element :=
  match errors with
  | [] => []
  | _ => Expander (int_repr (Z.of_nat (length errors))
                     +:+ " model(s) failed to load")
         :: (Warning <$> errors)
  end.

(** The sidebar of lines 109-143. *)
Definition sidebar (usr : user) (data : DataFrame) (ic iv im : nat)
  : list element :=
  [SidebarHeader "Select verse";
   SidebarSelectbox "Chapter (Surah)"
     ((λ x, "Surah " +:+ int_repr x) <$> chapters_of data ic);
   SidebarSelectbox "Verse (Ayah)"
     ((λ x, "Ayah " +:+ int_repr x)
        <$> verses_of data ic iv (answered_chapter usr data ic));
   SidebarHeader "Select models";
   SidebarCheckbox "Select all models" true;
   SidebarMultiselect "Models" (models_of data im) (offered_default usr data im)].

(** A piece of script that sends no request, leaves the cache as it is
    and only adds to the page. *)
Definition local {A : Type} (m : script A) : Prop :=
  ∀ s out s', m s = (out, s') →
    requests s' = requests s ∧ cache s' = cache s
    ∧ ∃ page, screen s' = screen s ++ page.

(** ** Worked inputs *)

(** A session in which nothing has happened yet. *)
Definition fresh : session := {| requests := []; screen := []; cache := None |}.

(** A network that serves the given tables by file name and fails on
    every other request. *)
Definition serve (tables : list (string * DataFrame)) (description : string)
  : network :=
  λ url, match list_find (λ entry, url_of entry.1 = url) tables with
         | Some (_, (_, df)) => Parsed df
         | None => Failed description
         end.

(** A network on which every request fails. *)
Definition offline : network := λ _, Failed "Read timed out.".

(** The two resources of the example of the specification. *)
Definition table_alpha : DataFrame :=
  {| columns := ["Chapter"; "Verse"; "Orig"; "Translation"];
     rows := [[Num (Int 1); Num (Int 1); Str "x"; Str "alpha"]] |}.

Definition table_beta : DataFrame :=
  {| columns := ["Chapter"; "Verse"; "Orig"; "Interpretation"];
     rows := [[Num (Int 1); Num (Int 1); Str "x"; Str "beta"]] |}.

Definition two_models : network :=
  serve [("Claude_opus.csv", table_alpha); ("GPT3.csv", table_beta)]
        "404 Client Error".

(** A resource whose first verse is numbered zero in chapter zero. *)
Definition table_zero : DataFrame :=
  {| columns := ["Chapter"; "Verse"; "Orig"; "Translation"];
     rows := [[Num (Int 0); Num (Int 0); Str "x"; Str "alpha"];
              [Num (Int 1); Num (Int (-3)); Str "y"; Str "beta"]] |}.

Definition zero_based : network :=
  serve [("Claude_haiku.csv", table_zero)] "404 Client Error".

(** A resource whose chapter column is text: a fraction, a word, a number. *)
Definition table_text : DataFrame :=
  {| columns := ["Chapter"; "Verse"; "Orig"];
     rows := [[Str "1.9"; Num (Int 2); Str "x"];
              [Str "one"; Num (Int 3); Str "y"];
              [Str "-2.5"; Num (Int 4); Str "z"]] |}.

Definition textual : network :=
  serve [("Mixtral.csv", table_text)] "404 Client Error".

(** Two resources whose headers differ in case only. *)
Definition table_lower : DataFrame :=
  {| columns := ["chapter"; "verse"; "orig"; "translation"];
     rows := [[Num (Int 1); Num (Int 1); Str "x"; Str "beta"]] |}.

Definition mixed_case : network :=
  serve [("Claude_opus.csv", table_alpha); ("GPT3.csv", table_lower)]
        "404 Client Error".

(** Two resources that agree on every header but that of the
    translation, which one of them spells without the capital. *)
Definition table_small_t : DataFrame :=
  {| columns := ["Chapter"; "Verse"; "Orig"; "translation"];
     rows := [[Num (Int 1); Num (Int 1); Str "x"; Str "beta"]] |}.

Definition two_translations : network :=
  serve [("Claude_opus.csv", table_alpha); ("GPT3.csv", table_small_t)]
        "404 Client Error".

(** Two resources that spell the original of the same verse differently;
    the first in file order has the later display name. *)
Definition table_grok : DataFrame :=
  {| columns := ["Chapter"; "Verse"; "Orig"; "Translation"];
     rows := [[Num (Int 1); Num (Int 1); Str "from Grok"; Str "alpha"]] |}.

Definition table_gemini : DataFrame :=
  {| columns := ["Chapter"; "Verse"; "Orig"; "Translation"];
     rows := [[Num (Int 1); Num (Int 1); Str "from Gemini"; Str "beta"]] |}.

Definition two_originals : network :=
  serve [("Grok2.csv", table_grok); ("gemini_1.5_flash.csv", table_gemini)]
        "404 Client Error".

(** A person who leaves every widget as it comes up, and one who clears
    the model selection. *)
Definition by_default : user :=
  {| selectbox := λ _ options, head options;
     checkbox := λ _ value, value;
     multiselect := λ _ _ default, default |}.

Definition deselecting : user :=
  {| selectbox := λ _ options, head options;
     checkbox := λ _ value, value;
     multiselect := λ _ _ _, [] |}.

(** The corpora [load_all_data] builds from these networks. *)
Definition two_models_corpus : DataFrame :=
  {| columns := ["chapter"; "verse"; "orig"; "translation"; "model";
                 "interpretation"];
     rows := [[Num (Int 1); Num (Int 1); Str "x"; Str "alpha";
               Str "Claude Opus"; NaN];
              [Num (Int 1); Num (Int 1); Str "x"; NaN;
               Str "GPT-3"; Str "beta"]] |}.

Definition zero_based_corpus : DataFrame :=
  {| columns := ["chapter"; "verse"; "orig"; "translation"; "model"];
     rows := [[Num (Int 0); Num (Int 0); Str "x"; Str "alpha";
               Str "Claude Haiku"];
              [Num (Int 1); Num (Int (-3)); Str "y"; Str "beta";
               Str "Claude Haiku"]] |}.

Definition textual_corpus : DataFrame :=
  {| columns := ["chapter"; "verse"; "orig"; "model"];
     rows := [[Num (Int 1); Num (Int 2); Str "x"; Str "Mixtral"];
              [Num (Int (-2)); Num (Int 4); Str "z"; Str "Mixtral"]] |}.

Definition two_translations_corpus : DataFrame :=
  {| columns := ["chapter"; "verse"; "orig"; "translation"; "model";
                 "translation"];
     rows := [[Num (Int 1); Num (Int 1); Str "x"; Str "alpha";
               Str "Claude Opus"; NaN];
              [Num (Int 1); Num (Int 1); Str "x"; NaN;
               Str "GPT-3"; Str "beta"]] |}.

Definition two_originals_corpus : DataFrame :=
  {| columns := ["chapter"; "verse"; "orig"; "translation"; "model"];
     rows := [[Num (Int 1); Num (Int 1); Str "from Grok"; Str "alpha";
               Str "Grok 2"];
              [Num (Int 1); Num (Int 1); Str "from Gemini"; Str "beta";
               Str "Gemini 1.5 Flash"]] |}.

(** A resource that labels its chapters [Surah]: no label of it
    normalises to [chapter]. *)
Definition table_surah : DataFrame :=
  {| columns := ["Surah"; "Verse"; "Orig"];
     rows := [[Num (Int 1); Num (Int 1); Str "x"]] |}.

Definition relabelled : network :=
  serve [("Llama2.csv", table_surah)] "404 Client Error".

(** A resource with an infinite chapter under a good row. *)
Definition table_infinite : DataFrame :=
  {| columns := ["Chapter"; "Verse"; "Orig"];
     rows := [[Num (Int 1); Num (Int 1); Str "x"];
              [Num (Inf false); Num (Int 2); Str "y"]] |}.

Definition unbounded : network :=
  serve [("Llama3.csv", table_infinite)] "404 Client Error".

(** A resource none of whose rows has a chapter that reads as a number. *)
Definition table_words : DataFrame :=
  {| columns := ["Chapter"; "Verse"; "Orig"];
     rows := [[Str "one"; Num (Int 1); Str "x"];
              [NaN; Num (Int 2); Str "y"]] |}.

Definition unnumbered : network :=
  serve [("GPT4o.csv", table_words)] "404 Client Error".

Definition unnumbered_corpus : DataFrame :=
  {| columns := ["chapter"; "verse"; "orig"; "model"]; rows := [] |}.

(** A session of a later run: the corpus of the two models is in the
    cache. *)
Definition revisited : session :=
  {| requests := []; screen := []; cache := Some (two_models_corpus, []) |}.

(** ** Properties *)

Section Positions.

Lemma positions_spec (label : string) (cols : list string) (i : nat) :
  i ∈ positions label cols ↔ cols !! i = Some label.
Proof.
  unfold positions. rewrite list_elem_of_omap. split.
  - intros (o & Ho & Hi). simpl in Hi. subst o.
    apply elem_of_lookup_imap_1 in Ho as (j & c & E & Hc).
    destruct (decide (c = label)); simplify_eq. done.
  - intros Hi. exists (Some i). split; [|done].
    pose proof (elem_of_lookup_imap_2
      (λ i c, if decide (c = label) then Some i else None) cols label i Hi) as E.
    simpl in E. by rewrite decide_True in E.
Qed.

Lemma locate_Single (label : string) (cols : list string) (i : nat) :
  locate label cols = Single i →
  cols !! i = Some label ∧ ∀ j, cols !! j = Some label → j = i.
Proof.
  unfold locate. intros E.
  destruct (positions label cols) as [|k [|k' l]] eqn:P; simplify_eq.
  split.
  - apply positions_spec. rewrite P. set_solver.
  - intros j Hj. rewrite <- positions_spec, P in Hj.
    by apply list_elem_of_singleton.
Qed.

Lemma locate_Missing (label : string) (cols : list string) :
  locate label cols = Missing → label ∉ cols.
Proof.
  unfold locate. intros E Hin.
  destruct (positions label cols) as [|k [|k' l]] eqn:P; simplify_eq.
  apply list_elem_of_lookup in Hin as [i Hi].
  rewrite <- positions_spec, P in Hi. set_solver.
Qed.

End Positions.

Section Loader.
Context `{Runtime} (net : network).

(** The loop of lines 51-63 never stops early: it requests every file in
    turn and sorts the answers into tables and report entries. *)
Lemma load_loop (files : list string) (frames : list DataFrame)
    (errors : list string) (s : session) :
  for_fold (load_one net) files (frames, errors) s
  = (Done (frames ++ tagged net files, errors ++ report net files),
     {| requests := requests s ++ (url_of <$> files);
        screen := screen s;
        cache := cache s |}).
Proof.
  revert frames errors s.
  induction files as [|f files IH]; intros frames errors s.
  - simpl. unfold mret, script_ret. rewrite !app_nil_r. by destruct s.
  - simpl. unfold mbind, script_bind, load_one, fetch at 1.
    unfold tagged, report, parsed, failure. simpl.
    destruct (net (url_of f)) as [e|df]; simpl;
      unfold mret, script_ret; rewrite IH; simpl;
      rewrite <- !app_assoc; reflexivity.
Qed.


End Loader.

Section Sixty_four.

Lemma wrap64_int64 (z : Z) : int64 (wrap64 z).
Proof.
  unfold int64, wrap64.
  pose proof (Z.mod_pos_bound (z + 2 ^ 63) (2 ^ 64)). lia.
Qed.

Lemma wrap64_id (z : Z) : int64 z → wrap64 z = z.
Proof. unfold int64, wrap64. intros Hz. rewrite Z.mod_small; lia. Qed.

Lemma float_to_int64_int64 (q : Q) : int64 (float_to_int64 q).
Proof. unfold float_to_int64. case_decide; [done|]. unfold int64. lia. Qed.

Lemma float_to_int64_exact (q : Q) :
  int64 (truncate q) → float_to_int64 q = truncate q.
Proof. intros Hq. unfold float_to_int64. by rewrite decide_True. Qed.

Lemma truncate_inject_Z (z : Z) : truncate (inject_Z z) = z.
Proof. unfold truncate, inject_Z. simpl. apply Z.quot_1_r. Qed.

Lemma to_float64_exact (z : Z) : (Z.abs z < 2 ^ 53)%Z → to_float64 z = inject_Z z.
Proof.
  intros Hz. unfold to_float64, round53.
  destruct (Z.ltb_spec (Z.abs z) (2 ^ 53)); [|lia]. f_equal. lia.
Qed.

Lemma small_is_int64 (z : Z) : (Z.abs z < 2 ^ 53)%Z → int64 z.
Proof. unfold int64. lia. Qed.

End Sixty_four.

Section Rows.
Context `{Runtime}.

Lemma astype_int_Some (c c' : cell) :
  astype_int c = Some c' → c ≠ NaN ∧ ∃ z, c' = Num (Int z) ∧ int64 z.
Proof.
  destruct c as [|[z|q|b]|s]; intros; simplify_eq/=; split; try done.
  - eexists. split; [done|]. apply wrap64_int64.
  - eexists. split; [done|]. apply float_to_int64_int64.
Qed.

Lemma cell_at_insert (i j : nat) (c : cell) (r : list cell) :
  cell_at j (<[i:=c]> r)
  = if decide (i = j ∧ i < length r) then c else cell_at j r.
Proof. unfold cell_at. rewrite list_lookup_insert. by case_decide. Qed.

Lemma cell_at_lt (i : nat) (r : list cell) : cell_at i r ≠ NaN → i < length r.
Proof.
  unfold cell_at. intros Hc. apply lookup_lt_is_Some.
  destruct (r !! i); [eauto|done].
Qed.

Lemma cell_at_ge (i : nat) (r : list cell) : length r ≤ i → cell_at i r = NaN.
Proof. unfold cell_at. intros Hi. by rewrite lookup_ge_None_2. Qed.

Lemma to_numeric_NaN (c : cell) :
  to_numeric c = NaN ↔ c = NaN ∨ ∃ s, c = Str s ∧ parse_numeric s = None.
Proof.
  destruct c as [|n|s]; simpl.
  - split; [by left|done].
  - split; [done|]. intros [?|(s & ? & _)]; done.
  - destruct (parse_numeric s) eqn:E.
    + split; [done|]. intros [?|(s' & ? & ?)]; [done|]. congruence.
    + split; [|done]. intros _. right. eauto.
Qed.

Lemma readable_to_numeric (c : cell) : readable c = notna (to_numeric c).
Proof.
  destruct c as [|n|t]; simpl; [done..|].
  by destruct (parse_numeric t) as [n|].
Qed.

Lemma readable_unreadable (c : cell) : readable c = false ↔ unreadable c.
Proof.
  rewrite readable_to_numeric. unfold unreadable. rewrite <- to_numeric_NaN.
  destruct (to_numeric c); simpl; split; done.
Qed.

Lemma upcast_notna (c : cell) : notna (upcast c) = notna c.
Proof. by destruct c as [|[z|q|b]|t]. Qed.

Lemma coerce_notna (float64 : bool) (c : cell) :
  notna (coerce float64 c) = readable c.
Proof.
  rewrite readable_to_numeric. unfold coerce.
  destruct float64; [apply upcast_notna|done].
Qed.

Lemma to_numeric_no_text (c : cell) (t : string) : to_numeric c ≠ Str t.
Proof. destruct c as [|n|t']; simpl; [done..|]. by destruct (parse_numeric t'). Qed.

(** The cast of a value that has been read: it fails on what is missing
    and on an infinity, and on nothing else. *)
Lemma astype_coerce_total (float64 : bool) (c : cell) :
  readable c = true → finite c = true →
  is_Some (astype_int (coerce float64 c)).
Proof.
  rewrite readable_to_numeric. unfold finite, coerce.
  pose proof (to_numeric_no_text c) as Htext.
  destruct (to_numeric c) as [|[z|q|b]|t]; try done.
  - destruct float64; simpl; eauto.
  - destruct float64; simpl; eauto.
  - by destruct (Htext t).
Qed.

Lemma astype_coerce_finite (float64 : bool) (c c' : cell) :
  astype_int (coerce float64 c) = Some c' → finite c = true.
Proof.
  unfold finite, coerce.
  destruct (to_numeric c) as [|[z|q|b]|t]; try done; by destruct float64.
Qed.

(** An integer of at most 53 bits comes out of the cast as it went in,
    whichever dtype the column had on the way. *)
Lemma astype_coerce_int (float64 : bool) (c : cell) (z : Z) :
  to_numeric c = Num (Int z) → (Z.abs z < 2 ^ 53)%Z →
  astype_int (coerce float64 c) = Some (Num (Int z)).
Proof.
  intros Hc Hz. unfold coerce. rewrite Hc. destruct float64; simpl.
  - rewrite to_float64_exact by done.
    rewrite float_to_int64_exact; rewrite truncate_inject_Z;
      [done|by apply small_is_int64].
  - by rewrite wrap64_id by by apply small_is_int64.
Qed.

(** A float whose integer part is in range comes out truncated. *)
Lemma astype_coerce_float (float64 : bool) (c : cell) (q : Q) :
  to_numeric c = Num (Float q) → int64 (truncate q) →
  astype_int (coerce float64 c) = Some (Num (Int (truncate q))).
Proof.
  intros Hc Hq. unfold coerce. rewrite Hc.
  destruct float64; simpl; by rewrite float_to_int64_exact.
Qed.

Lemma coerce_row_cells (ic iv : nat) (fc fv : bool) (r : list cell) :
  ic ≠ iv →
  cell_at ic (coerce_row ic iv fc fv r) = coerce fc (cell_at ic r)
  ∧ cell_at iv (coerce_row ic iv fc fv r) = coerce fv (cell_at iv r).
Proof.
  intros Hne. unfold coerce_row. rewrite !cell_at_insert, !length_insert.
  assert (∀ fl i, ¬ (i = i ∧ i < length r) → coerce fl (cell_at i r) = NaN)
    as Hout.
  { intros fl i Hi. rewrite cell_at_ge by lia. by destruct fl. }
  split.
  - rewrite decide_False by (intros [? _]; congruence).
    case_decide as Hd; [done|]. rewrite Hout by done. apply cell_at_ge. lia.
  - rewrite (decide_False (P := ic = iv ∧ _)) by (intros [? _]; congruence).
    case_decide as Hd; [done|]. rewrite Hout by done. apply cell_at_ge. lia.
Qed.

Lemma coerce_row_other (ic iv j : nat) (fc fv : bool) (r : list cell) :
  j ≠ ic → j ≠ iv → cell_at j (coerce_row ic iv fc fv r) = cell_at j r.
Proof.
  intros Hc Hv. unfold coerce_row. rewrite !cell_at_insert.
  by rewrite !decide_False by (intros [? _]; congruence).
Qed.

Lemma coerce_row_length (ic iv : nat) (fc fv : bool) (r : list cell) :
  length (coerce_row ic iv fc fv r) = length r.
Proof. unfold coerce_row. by rewrite !length_insert. Qed.

Lemma complete_spec (ic iv : nat) (r : list cell) :
  complete ic iv r = true ↔ cell_at ic r ≠ NaN ∧ cell_at iv r ≠ NaN.
Proof.
  unfold complete, notna. simpl.
  destruct (cell_at ic r), (cell_at iv r); simpl; split; try done;
    intros [? ?]; done.
Qed.

(** [dropna] keeps the rows the specification calls numbered. *)
Lemma complete_coerce_row (ic iv : nat) (fc fv : bool) (r : list cell) :
  ic ≠ iv → complete ic iv (coerce_row ic iv fc fv r) = numbered ic iv r.
Proof.
  intros Hne. destruct (coerce_row_cells ic iv fc fv r Hne) as [Ec Ev].
  unfold complete, numbered. simpl.
  by rewrite Ec, Ev, !coerce_notna, andb_true_r.
Qed.

(** What the casts leave in a row: integers in both columns, the
    casts of what was there, and every other cell as it was. *)
Lemma cast_row_cells (ic iv : nat) (r r' : list cell) :
  ic ≠ iv → cast_row ic iv r = Some r' →
  length r' = length r
  ∧ astype_int (cell_at ic r) = Some (cell_at ic r')
  ∧ astype_int (cell_at iv r) = Some (cell_at iv r')
  ∧ ∀ j, j ≠ ic → j ≠ iv → cell_at j r' = cell_at j r.
Proof.
  intros Hne. unfold cast_row.
  destruct (astype_int (cell_at ic r)) as [c|] eqn:Ec; [|done]. simpl.
  rewrite cell_at_insert, decide_False by (intros [? _]; congruence).
  destruct (astype_int (cell_at iv r)) as [v|] eqn:Ev; [|done]. simpl.
  intros [= <-].
  apply astype_int_Some in Ec as [Hc%cell_at_lt _].
  apply astype_int_Some in Ev as [Hv%cell_at_lt _].
  rewrite !cell_at_insert, !length_insert.
  repeat split.
  - rewrite decide_False by (intros [? _]; congruence).
    by rewrite decide_True.
  - by rewrite decide_True.
  - intros j Hj1 Hj2. rewrite !cell_at_insert.
    by rewrite !decide_False by (intros [? _]; congruence).
Qed.

Lemma cast_row_typed (ic iv : nat) (r r' : list cell) :
  ic ≠ iv → cast_row ic iv r = Some r' →
  (∃ c, chapter ic r' = Some c ∧ int64 c) ∧ (∃ v, verse iv r' = Some v ∧ int64 v).
Proof.
  intros Hne Hr. apply cast_row_cells in Hr as (_ & Hc & Hv & _); [|done].
  apply astype_int_Some in Hc as [_ (zc & Hc & ?)].
  apply astype_int_Some in Hv as [_ (zv & Hv & ?)].
  unfold chapter, verse. rewrite Hc, Hv. simpl. split; eauto.
Qed.

(** A numbered row without an infinity passes both casts. *)
Lemma cast_row_total (ic iv : nat) (fc fv : bool) (r : list cell) :
  ic ≠ iv → numbered ic iv r = true →
  finite (cell_at ic r) = true → finite (cell_at iv r) = true →
  is_Some (cast_row ic iv (coerce_row ic iv fc fv r)).
Proof.
  intros Hne [Hc Hv]%andb_true_iff Hfc Hfv.
  destruct (coerce_row_cells ic iv fc fv r Hne) as [Ec Ev].
  destruct (astype_coerce_total fc _ Hc Hfc) as [c Ecast].
  destruct (astype_coerce_total fv _ Hv Hfv) as [v Vcast].
  unfold cast_row. rewrite Ec, Ecast. simpl.
  rewrite cell_at_insert, decide_False by (intros [? _]; congruence).
  rewrite Ev, Vcast. simpl. eauto.
Qed.

Lemma chapter_verse_apart (cols : list string) (ic iv : nat) :
  locate "chapter" cols = Single ic → locate "verse" cols = Single iv → ic ≠ iv.
Proof.
  intros [Hc _]%locate_Single [Hv _]%locate_Single ->. congruence.
Qed.

Lemma filter_fmap_commute {A B : Type} (f : A → B) (P : B → Prop)
    `{!∀ y, Decision (P y)} (l : list A) :
  filter P (f <$> l) = f <$> filter (λ x, P (f x)) l.
Proof.
  induction l as [|x l IH]; [done|].
  rewrite fmap_cons, !filter_cons, IH. simpl.
  by destruct (decide (P (f x))).
Qed.

End Rows.

Section Normalise.
Context `{Runtime}.

Lemma mapM_then {A : Type} (f g h : A → option A) (l : list A) :
  (∀ x, h x = f x ≫= g) →
  mapM h l = mapM f l ≫= mapM g.
Proof.
  intros Hh. induction l as [|x l IH]; [done|].
  cbn [mapM]. rewrite Hh, IH.
  destruct (f x) as [y|]; simpl; [|done].
  destruct (g y) as [z|] eqn:Eg; simpl.
  - destruct (mapM f l) as [l1|]; simpl; [|done]. by rewrite Eg.
  - destruct (mapM f l) as [l1|]; simpl; [|done]. by rewrite Eg.
Qed.

(** [pd.to_numeric] on a column, row by row. *)
Lemma numeric_column_spec (i : nat) (df : DataFrame) :
  columns (numeric_column i df) = columns df
  ∧ rows (numeric_column i df)
    = (λ r, <[i := coerce (floating i (rows df)) (cell_at i r)]> r) <$> rows df.
Proof.
  unfold numeric_column, floating, coerce.
  assert (cell_at i <$> rows (map_column to_numeric i df)
          = (λ r, to_numeric (cell_at i r)) <$> rows df) as ->.
  { simpl. rewrite <- list_fmap_compose. apply list_fmap_ext. intros _ r _.
    simpl. rewrite cell_at_insert. case_decide as Hd; [done|].
    by rewrite cell_at_ge by lia. }
  destruct (integral _); simpl; [done|]. split; [done|].
  rewrite <- list_fmap_compose. apply list_fmap_ext. intros _ r _. simpl.
  rewrite list_insert_insert_eq, cell_at_insert. case_decide as Hd; [done|].
  rewrite !list_insert_ge by lia. done.
Qed.

Lemma floating_other (i j : nat) (f : list cell → cell) (table : list (list cell)) :
  i ≠ j →
  floating j ((λ r, <[i := f r]> r) <$> table) = floating j table.
Proof.
  intros Hne. unfold floating. f_equal. f_equal.
  rewrite <- list_fmap_compose. apply list_fmap_ext. intros _ r _. simpl.
  rewrite cell_at_insert. by rewrite decide_False by (intros [? _]; done).
Qed.

(** The normalisation once the two columns are found: read both, drop
    the rows that miss either, cast both. *)
Lemma normalise_run (frames : list DataFrame) (s : session) (ic iv : nat) :
  locate "chapter" ((λ c, lower (strip c)) <$> columns (concat frames)) = Single ic →
  locate "verse" ((λ c, lower (strip c)) <$> columns (concat frames)) = Single iv →
  normalise frames s
  = match mapM (cast_row ic iv)
            (filter (λ r, complete ic iv r)
               (coerce_row ic iv (floating ic (rows (concat frames)))
                  (floating iv (rows (concat frames))) <$> rows (concat frames)))
    with
    | Some table =>
        (Done {| columns := (λ c, lower (strip c)) <$> columns (concat frames);
                 rows := table |}, s)
    | None => (Raised IntCastingNaNError, s)
    end.
Proof.
  intros Hc Hv. pose proof (chapter_verse_apart _ _ _ Hc Hv) as Hne.
  unfold normalise, numeric_series.
  set (df0 := {| columns := (λ c, lower (strip c)) <$> columns (concat frames);
                 rows := rows (concat frames) |}).
  change (columns df0) with ((λ c, lower (strip c)) <$> columns (concat frames)).
  rewrite Hc. unfold mbind at 1, script_bind at 1, mret at 1, script_ret at 1.
  cbv beta iota.
  destruct (numeric_column_spec ic df0) as [Ecols1 Erows1].
  rewrite Ecols1.
  change (columns df0) with ((λ c, lower (strip c)) <$> columns (concat frames)).
  rewrite Hv. unfold mbind at 1, script_bind at 1, mret at 1, script_ret at 1.
  cbv beta iota.
  destruct (numeric_column_spec iv (numeric_column ic df0)) as [Ecols2 Erows2].
  rewrite Erows1 in Erows2. rewrite floating_other in Erows2 by done.
  rewrite <- list_fmap_compose in Erows2.
  change (rows df0) with (rows (concat frames)) in Erows2.
  assert (rows (numeric_column iv (numeric_column ic df0))
          = coerce_row ic iv (floating ic (rows (concat frames)))
              (floating iv (rows (concat frames))) <$> rows (concat frames))
    as Hread.
  { rewrite Erows2. apply list_fmap_ext. intros _ r _. reflexivity. }
  unfold try_map_column, dropna. cbn [rows columns].
  rewrite Hread, Ecols2, Ecols1.
  change (columns df0) with ((λ c, lower (strip c)) <$> columns (concat frames)).
  rewrite (mapM_then
             (λ r, c ← astype_int (cell_at ic r); Some (<[ic:=c]> r))
             (λ r, c ← astype_int (cell_at iv r); Some (<[iv:=c]> r))
             (cast_row ic iv)).
  2:{ intros r. unfold cast_row. by destruct (astype_int (cell_at ic r)). }
  destruct (mapM _ (filter _ _)) as [l1|]; simpl; [|done].
  unfold mbind, script_bind, or_raise. simpl.
  destruct (mapM _ l1) as [l2|]; simpl; done.
Qed.

Lemma normalise_located (frames : list DataFrame) (s s' : session)
    (data : DataFrame) :
  normalise frames s = (Done data, s') →
  ∃ ic iv,
    locate "chapter" ((λ c, lower (strip c)) <$> columns (concat frames)) = Single ic
    ∧ locate "verse" ((λ c, lower (strip c)) <$> columns (concat frames)) = Single iv.
Proof.
  unfold normalise, numeric_series.
  set (df0 := {| columns := (λ c, lower (strip c)) <$> columns (concat frames);
                 rows := rows (concat frames) |}).
  change (columns df0) with ((λ c, lower (strip c)) <$> columns (concat frames)).
  destruct (locate "chapter" _) as [|ic|] eqn:Hc; [done| |done].
  unfold mbind at 1, script_bind at 1, mret at 1, script_ret at 1.
  cbv beta iota.
  rewrite (proj1 (numeric_column_spec ic df0)).
  change (columns df0) with ((λ c, lower (strip c)) <$> columns (concat frames)).
  destruct (locate "verse" _) as [|iv|] eqn:Hv; [done| |done]. eauto.
Qed.

End Normalise.

Section Loading.
Context `{Runtime} (net : network).

Lemma normalise_pure (frames : list DataFrame) (s : session) :
  ∃ r, normalise frames s = (r, s) ∧ r ≠ Stopped.
Proof.
  unfold normalise, numeric_series, mbind, script_bind.
  destruct (locate "chapter" _); simpl; eauto.
  destruct (locate "verse" _); simpl; eauto.
  unfold or_raise.
  destruct (try_map_column _ _ _) as [d|]; simpl; eauto.
  destruct (try_map_column _ _ _) as [d'|]; simpl; eauto.
Qed.

(** [load_from] in one step: the loop, then the guard of lines 65-67, then
    the normalisation of the tables the loop collected. *)
Lemma load_from_run (files : list string) (s : session) :
  load_from net files s
  = match tagged net files with
    | [] => (Stopped, drawn [no_data] (requested files s))
    | frames =>
        match normalise frames (requested files s) with
        | (Done combined, s') => (Done (combined, report net files), s')
        | (Stopped, s') => (Stopped, s')
        | (Raised e, s') => (Raised e, s')
        end
    end.
Proof.
  unfold load_from, mbind at 1, script_bind at 1.
  rewrite load_loop. simpl.
  destruct (tagged net files) as [|df frames]; [reflexivity|].
  unfold mbind, script_bind. fold (requested files s).
  destruct (normalise _ _) as [[d| |e] s']; reflexivity.
Qed.

(** What a returning [load_from] has done to the merged table. *)
Lemma load_from_done (files : list string) (s s' : session)
    (data : DataFrame) (errors : list string) :
  load_from net files s = (Done (data, errors), s') →
  s' = requested files s ∧ errors = report net files
  ∧ tagged net files ≠ []
  ∧ ∃ ic iv,
      locate "chapter" (columns data) = Single ic
      ∧ locate "verse" (columns data) = Single iv
      ∧ ic ≠ iv
      ∧ columns data = columns (merged net files)
      ∧ Forall2 (cast_of ic iv (rows (merged net files)))
          (filter (λ r, numbered ic iv r) (rows (merged net files)))
          (rows data).
Proof.
  rewrite load_from_run.
  destruct (tagged net files) as [|df frames] eqn:Et; [done|].
  rewrite <- Et.
  destruct (normalise_pure (tagged net files) (requested files s))
    as (out & Hrun & _).
  rewrite Hrun. destruct out as [d| |e]; [|done..].
  intros [= <- <- <-]. split; [done|]. split; [done|].
  split; [by rewrite Et|].
  destruct (normalise_located _ _ _ _ Hrun) as (ic & iv & Hc & Hv).
  pose proof (chapter_verse_apart _ _ _ Hc Hv) as Hne.
  rewrite (normalise_run _ _ ic iv Hc Hv) in Hrun.
  destruct (mapM _ _) as [table|] eqn:Hrows; [|done].
  injection Hrun as <-. exists ic, iv. cbn [columns rows].
  split; [done|]. split; [done|]. split; [done|]. split; [done|].
  apply mapM_Some in Hrows. rewrite filter_fmap_commute in Hrows.
  apply Forall2_fmap_l in Hrows. unfold merged. cbn [rows].
  erewrite list_filter_iff; [exact Hrows|].
  intros r. simpl. by rewrite complete_coerce_row.
Qed.

(** When it returns: as soon as a resource loaded, the merged table has
    one chapter and one verse column, and no numbered row has an infinite
    chapter or verse. *)
Lemma load_from_returns (files : list string) (s : session) (ic iv : nat) :
  tagged net files ≠ [] →
  locate "chapter" (columns (merged net files)) = Single ic →
  locate "verse" (columns (merged net files)) = Single iv →
  Forall (λ r, numbered ic iv r = true →
               finite (cell_at ic r) = true ∧ finite (cell_at iv r) = true)
    (rows (merged net files)) →
  ∃ data, load_from net files s = (Done (data, report net files), requested files s).
Proof.
  intros Hsome Hc Hv Hfinite.
  pose proof (chapter_verse_apart _ _ _ Hc Hv) as Hne.
  rewrite load_from_run.
  destruct (tagged net files) as [|df frames] eqn:Et; [done|].
  rewrite <- Et. unfold merged in Hc, Hv, Hfinite. cbn [columns rows] in *.
  rewrite (normalise_run _ _ ic iv Hc Hv).
  destruct (mapM _ _) as [table|] eqn:Hrows; [eauto|].
  apply mapM_None, Exists_exists in Hrows as (x & Hx & Hcast).
  apply list_elem_of_filter in Hx as [Hcomplete Hx].
  apply list_elem_of_fmap in Hx as (r & -> & Hr).
  apply Is_true_true in Hcomplete. rewrite complete_coerce_row in Hcomplete by done.
  destruct (proj1 (Forall_forall _ _) Hfinite r Hr Hcomplete) as [Hfc Hfv].
  destruct (cast_row_total ic iv (floating ic (rows (concat (tagged net files))))
              (floating iv (rows (concat (tagged net files)))) r)
    as [r' Hr']; try done.
  by rewrite Hr' in Hcast.
Qed.

End Loading.

Section Merge.
Context `{Runtime} (net : network).

Lemma elem_of_unique (l : list string) (x : string) : x ∈ unique l ↔ x ∈ l.
Proof.
  induction l as [|y l IH]; [done|].
  cbn [unique]. rewrite !elem_of_cons, list_elem_of_filter, IH.
  destruct (decide (x = y)); intuition.
Qed.

Lemma fmap_join {A B : Type} (f : A → B) (ls : list (list A)) :
  f <$> mjoin ls = mjoin (fmap f <$> ls).
Proof. induction ls as [|l ls IH]; [done|]. csimpl. by rewrite fmap_app, IH. Qed.

(** The rows of the merged table: every row of every frame, in the order
    of the frames, laid out on the union of the labels.  Under each label
    the row holds what the frame's row holds under it, as a float where
    the column became [float64]. *)
Lemma concat_rows (frames : list DataFrame) :
  ∃ place : DataFrame → list cell → list cell,
    rows (concat frames) = mjoin ((λ df, place df <$> rows df) <$> frames)
    ∧ ∀ df r j L, columns (concat frames) !! j = Some L →
        same_value (under L df r) (cell_at j (place df r)).
Proof.
  unfold concat. cbn [rows columns].
  set (labels := unique (mjoin (columns <$> frames))).
  set (laid := mjoin (reindex labels <$> frames)).
  set (float64 := imap _ labels).
  exists (λ df r, zip_with (λ (fl : bool) c, if fl then upcast c else c)
                   float64 ((λ c, under c df r) <$> labels)).
  split.
  - unfold laid. rewrite fmap_join, <- list_fmap_compose. f_equal.
    apply list_fmap_ext. intros _ df _. simpl. unfold reindex.
    by rewrite <- list_fmap_compose.
  - intros df r j L Hj. unfold cell_at. rewrite lookup_zip_with.
    unfold float64. rewrite list_lookup_imap, list_lookup_fmap, Hj. simpl.
    destruct (floats _ _); [by right|by left].
Qed.


Lemma same_value_text (t : string) (c' : cell) :
  same_value (Str t) c' → c' = Str t.
Proof. by intros [->| ->]. Qed.



Lemma foldr_insert_length (v : cell) (at_ : list nat) (r : list cell) :
  length (foldr (λ i r', <[i:=v]> r') r at_) = length r.
Proof. induction at_ as [|i at_ IH]; simpl; [done|]. by rewrite length_insert. Qed.

(** After [df["Model"] = name] every row reads [name] under the label,
    provided the rows of the table are as long as its header. *)
Lemma assign_cell (label : string) (v : cell) (df : DataFrame) (r : list cell) :
  Forall (λ r, length r = length (columns df)) (rows df) →
  r ∈ rows (assign label v df) →
  ∃ i rest, positions label (columns (assign label v df)) = i :: rest
            ∧ cell_at i r = v.
Proof.
  intros Hrect. unfold assign.
  destruct (positions label (columns df)) as [|i0 rest0] eqn:Epos; simpl.
  - intros (r0 & -> & Hr0)%list_elem_of_fmap.
    eapply Forall_forall in Hrect; [|exact Hr0].
    assert (length (columns df) ∈ positions label (columns df ++ [label])) as Hin.
    { apply positions_spec. by rewrite lookup_app_r, Nat.sub_diag. }
    destruct (positions label (columns df ++ [label])) as [|i rest] eqn:E;
      [by apply not_elem_of_nil in Hin|].
    exists i, rest. split; [done|].
    assert (i ∈ positions label (columns df ++ [label])) as Hi
      by (rewrite E; left).
    apply positions_spec in Hi.
    assert (i = length (columns df)) as ->.
    { destruct (decide (i < length (columns df))) as [Hlt|Hge].
      - rewrite lookup_app_l in Hi by done.
        apply positions_spec in Hi. rewrite Epos in Hi.
        by apply not_elem_of_nil in Hi.
      - apply lookup_lt_Some in Hi. rewrite length_app in Hi. simpl in Hi. lia. }
    unfold cell_at. by rewrite <- Hrect, lookup_app_r, Nat.sub_diag.
  - rewrite Epos. intros (r0 & -> & Hr0)%list_elem_of_fmap.
    eapply Forall_forall in Hrect; [|exact Hr0].
    exists i0, rest0. split; [done|].
    assert (i0 ∈ positions label (columns df)) as Hi by (rewrite Epos; left).
    apply positions_spec, lookup_lt_Some in Hi.
    simpl. rewrite cell_at_insert, decide_True; [done|].
    split; [done|]. rewrite foldr_insert_length. lia.
Qed.


Lemma tagged_from (files : list string) (table : DataFrame) :
  table ∈ tagged net files →
  ∃ f df, f ∈ files ∧ net (url_of f) = Parsed df
          ∧ table = assign "Model" (Str (display_name_of f)) df.
Proof.
  unfold tagged. intros (f & Hf & Hparsed)%list_elem_of_omap.
  unfold parsed in Hparsed.
  destruct (net (url_of f)) as [e|df] eqn:Enet; [done|].
  exists f, df. by simplify_eq.
Qed.


(** A row of the merged table is a row of a loaded resource. *)
Lemma merged_row_from (files : list string) (r_m : list cell) :
  r_m ∈ rows (merged net files) →
  ∃ table r, table ∈ tagged net files ∧ r ∈ rows table
             ∧ ∀ j L, columns (concat (tagged net files)) !! j = Some L →
                 same_value (under L table r) (cell_at j r_m).
Proof.
  destruct (concat_rows (tagged net files)) as (place & Hrows & Hplace).
  unfold merged. cbn [rows]. rewrite Hrows.
  intros (block & Hr & Hblock)%list_elem_of_join.
  apply list_elem_of_fmap in Hblock as (table & -> & Htable).
  apply list_elem_of_fmap in Hr as (r & -> & Hr).
  exists table, r. split; [done|]. split; [done|]. by intros; apply Hplace.
Qed.


Lemma cast_from_table (ic iv : nat) (table data : list (list cell))
    (r' : list cell) :
  Forall2 (cast_of ic iv table) (filter (λ r, numbered ic iv r) table) data →
  r' ∈ data →
  ∃ r, r ∈ table ∧ numbered ic iv r = true ∧ cast_of ic iv table r r'.
Proof.
  intros Hrows [i Hi]%list_elem_of_lookup.
  destruct (Forall2_lookup_r _ _ _ _ _ Hrows Hi) as (r & Hr & Hcast).
  assert (r ∈ filter (λ r, numbered ic iv r) table) as Hin.
  { apply list_elem_of_lookup. eauto. }
  apply list_elem_of_filter in Hin as [Hnumbered Hin].
  exists r. split; [done|]. split; [by apply Is_true_true|done].
Qed.

(** What the cast of a row of the merged table holds. *)
Lemma cast_of_cells (ic iv : nat) (table : list (list cell)) (r r' : list cell) :
  ic ≠ iv → cast_of ic iv table r r' →
  length r' = length r
  ∧ astype_int (coerce (floating ic table) (cell_at ic r)) = Some (cell_at ic r')
  ∧ astype_int (coerce (floating iv table) (cell_at iv r)) = Some (cell_at iv r')
  ∧ ∀ j, j ≠ ic → j ≠ iv → cell_at j r' = cell_at j r.
Proof.
  intros Hne Hcast. unfold cast_of in Hcast.
  apply cast_row_cells in Hcast as (Hlen & Hc & Hv & Hother); [|done].
  destruct (coerce_row_cells ic iv (floating ic table) (floating iv table) r Hne)
    as [Ec Ev].
  rewrite Ec in Hc. rewrite Ev in Hv. rewrite coerce_row_length in Hlen.
  repeat split; try done.
  intros j Hj1 Hj2. rewrite Hother by done. by apply coerce_row_other.
Qed.

Lemma cast_of_typed (ic iv : nat) (table : list (list cell)) (r r' : list cell) :
  ic ≠ iv → cast_of ic iv table r r' →
  (∃ c, chapter ic r' = Some c ∧ int64 c) ∧ (∃ v, verse iv r' = Some v ∧ int64 v).
Proof. intros Hne Hcast. by eapply cast_row_typed. Qed.

End Merge.

Section Failures.
Context `{Runtime} (net : network).




(** C6. When no resource loads, [load_all_data] ends the run: it puts up
    the blocking error and stops, nothing is returned and nothing is
    stored, and [main] ends there, before any selector is drawn. *)
Theorem no_data_halts (usr : user) (s : session) :
  cache s = None →
  (∀ f, f ∈ CSV_FILES → ∃ e, net (url_of f) = Failed e) →
  load_all_data net s = (Stopped, drawn [no_data] (requested CSV_FILES s))
  ∧ main net usr s
    = (Stopped, drawn (page_head ++ [no_data]) (requested CSV_FILES s))
  ∧ cache (drawn (page_head ++ [no_data]) (requested CSV_FILES s)) = None.
Proof.
  intros Hcache Hfail.
  assert (tagged net CSV_FILES = []) as Hnone.
  { unfold tagged. generalize CSV_FILES Hfail. intros files Hfiles.
    induction files as [|f files IH]; [done|].
    cbn [omap list_omap]. unfold parsed at 1.
    destruct (Hfiles f) as [e ->]; [by left|].
    apply IH. intros g Hg. apply Hfiles. by right. }
  assert (∀ s0, cache s0 = None →
            load_all_data net s0
            = (Stopped, drawn [no_data] (requested CSV_FILES s0))) as Hload.
  { intros s0 Hs0. unfold load_all_data, cache_data.
    rewrite Hs0, load_from_run, Hnone. reflexivity. }
  split; [by apply Hload|]. split; [|done].
  unfold main, mbind at 1 2 3 4, script_bind at 1 2 3 4. simpl.
  rewrite Hload by done.
  unfold drawn, requested, page_head. simpl.
  by rewrite <- !app_assoc.
Qed.

End Failures.


Section Numbers.
Context `{Runtime} (net : network).

Lemma truncate_towards_zero (q : Q) :
  truncate q = (Z.sgn (Qnum q) * Qfloor (Qabs q))%Z.
Proof.
  unfold truncate. destruct q as [n d]. simpl.
  rewrite Z.quot_div by done. simpl. by rewrite Z.mul_1_r.
Qed.

Lemma numbered_unreadable (ic iv : nat) (r : list cell) :
  numbered ic iv r = false
  ↔ unreadable (cell_at ic r) ∨ unreadable (cell_at iv r).
Proof.
  unfold numbered. rewrite andb_false_iff. by rewrite !readable_unreadable.
Qed.

(** C3, as the code has it.  Every row of the corpus [load_all_data]
    builds has a 64-bit integer for its chapter and one for its verse, of
    either sign; positivity is not asked for.  The rows of the corpus
    are, one for one and in order, the rows of the merged table whose
    chapter and verse both read as numbers, with the two cast to integers
    (an integer of at most 53 bits is kept as it is) and every other cell
    as it was: a row whose chapter or verse is missing or reads as no
    number is dropped.  The loader returns this corpus, and does not
    fail, whenever a resource loaded, the merged table has one chapter
    and one verse column and none of the numbers read is infinite. *)
Theorem loaded_rows_are_integers (files : list string) (s : session) :
  (∀ data errors s',
     load_from net files s = (Done (data, errors), s') →
     ∃ ic iv,
       locate "chapter" (columns data) = Single ic
       ∧ locate "verse" (columns data) = Single iv
       ∧ Forall (λ r', ∃ c v, chapter ic r' = Some c ∧ verse iv r' = Some v
                              ∧ int64 c ∧ int64 v) (rows data)
       ∧ Forall2 (λ r r',
                    length r' = length r
                    ∧ (∀ j, j ≠ ic → j ≠ iv → cell_at j r' = cell_at j r)
                    ∧ (∀ z, to_numeric (cell_at ic r) = Num (Int z) →
                            (Z.abs z < 2 ^ 53)%Z → chapter ic r' = Some z)
                    ∧ (∀ z, to_numeric (cell_at iv r) = Num (Int z) →
                            (Z.abs z < 2 ^ 53)%Z → verse iv r' = Some z))
           (filter (λ r, numbered ic iv r) (rows (merged net files)))
           (rows data)
       ∧ (∀ r, numbered ic iv r = false
               ↔ unreadable (cell_at ic r) ∨ unreadable (cell_at iv r)))
  ∧ (∀ ic iv,
       tagged net files ≠ [] →
       locate "chapter" (columns (merged net files)) = Single ic →
       locate "verse" (columns (merged net files)) = Single iv →
       Forall (λ r, numbered ic iv r = true →
                    finite (cell_at ic r) = true ∧ finite (cell_at iv r) = true)
         (rows (merged net files)) →
       ∃ data, load_from net files s
               = (Done (data, report net files), requested files s)).
Proof.
  split; [|intros ic iv; apply load_from_returns].
  intros data errors s' Hload.
  apply load_from_done in Hload
    as (_ & _ & _ & ic & iv & Hc & Hv & Hne & _ & Hrows).
  exists ic, iv. split; [done|]. split; [done|].
  split; [|split; [|apply numbered_unreadable]].
  - apply Forall_forall. intros r' Hr'.
    destruct (cast_from_table _ _ _ _ _ Hrows Hr') as (r & _ & _ & Hcast).
    destruct (cast_of_typed _ _ _ _ _ Hne Hcast) as [(c & Ec & ?) (v & Ev & ?)].
    eauto 10.
  - eapply Forall2_impl; [exact Hrows|].
    intros r r' Hcast.
    apply cast_of_cells in Hcast as (Hlen & Ecast & Vcast & Hother); [|done].
    split; [done|]. split; [done|]. unfold chapter, verse.
    split; intros z Hz Hsmall.
    + rewrite (astype_coerce_int _ _ z Hz Hsmall) in Ecast.
      by injection Ecast as <-.
    + rewrite (astype_coerce_int _ _ z Hz Hsmall) in Vcast.
      by injection Vcast as <-.
Qed.

(** C10, as the code has it.  When a resource loaded, the merged table
    has one chapter and one verse column and no number read in them is
    infinite, the loader returns, and the rows of the corpus are, one for
    one and in order, the rows of the merged table whose chapter and
    verse read as numbers: a row is dropped exactly when its chapter or
    its verse is missing or is text that reads as no number.  Where the
    chapter (or verse) of a kept row reads as a float whose integer part
    is in the 64-bit range, a fraction such as 1.9 included, the row of
    the corpus has that value cut off towards zero: the sign times the
    integer part of the magnitude. *)
Theorem fractions_are_truncated (files : list string) (s : session)
    (ic iv : nat) :
  tagged net files ≠ [] →
  locate "chapter" (columns (merged net files)) = Single ic →
  locate "verse" (columns (merged net files)) = Single iv →
  Forall (λ r, numbered ic iv r = true →
               finite (cell_at ic r) = true ∧ finite (cell_at iv r) = true)
    (rows (merged net files)) →
  ∃ data,
    load_from net files s = (Done (data, report net files), requested files s)
    ∧ Forall2 (λ r r',
                 (∀ q, to_numeric (cell_at ic r) = Num (Float q) →
                       int64 (truncate q) → chapter ic r' = Some (truncate q))
                 ∧ (∀ q, to_numeric (cell_at iv r) = Num (Float q) →
                         int64 (truncate q) → verse iv r' = Some (truncate q))
                 ∧ ∀ j, j ≠ ic → j ≠ iv → cell_at j r' = cell_at j r)
        (filter (λ r, numbered ic iv r) (rows (merged net files)))
        (rows data)
    ∧ (∀ r, numbered ic iv r = false
            ↔ unreadable (cell_at ic r) ∨ unreadable (cell_at iv r))
    ∧ (∀ t q, parse_numeric t = Some (Float q) →
              to_numeric (Str t) = Num (Float q))
    ∧ (∀ q, truncate q = (Z.sgn (Qnum q) * Qfloor (Qabs q))%Z).
Proof.
  intros Hsome Hc Hv Hfinite.
  destruct (load_from_returns net files s ic iv Hsome Hc Hv Hfinite)
    as [data Hload].
  exists data. split; [done|].
  apply load_from_done in Hload
    as (_ & _ & _ & ic' & iv' & Hc' & Hv' & Hne & Hcols & Hrows).
  rewrite Hcols in Hc', Hv'. rewrite Hc in Hc'. rewrite Hv in Hv'.
  injection Hc' as <-. injection Hv' as <-.
  split; [|split; [apply numbered_unreadable|split]].
  - eapply Forall2_impl; [exact Hrows|].
    intros r r' Hcast.
    apply cast_of_cells in Hcast as (_ & Ecast & Vcast & Hother); [|done].
    unfold chapter, verse. split; [|split; [|done]]; intros q Hq Hrange.
    + rewrite (astype_coerce_float _ _ q Hq Hrange) in Ecast.
      by injection Ecast as <-.
    + rewrite (astype_coerce_float _ _ q Hq Hrange) in Vcast.
      by injection Vcast as <-.
  - intros t q Hq. simpl. by rewrite Hq.
  - apply truncate_towards_zero.
Qed.

End Numbers.

Section Memo.
Context `{Runtime}.

(** C9. Once [load_all_data] has returned, the value it returned is
    stored, and any later call, whatever the network would answer then and
    whatever has been drawn in between, sends no request and returns the
    same corpus and the same report. *)
Theorem second_load_is_served_from_the_cache (net net' : network)
    (s s1 : session) (loaded : DataFrame * list string) :
  load_all_data net s = (Done loaded, s1) →
  cache s1 = Some loaded
  ∧ ∀ s2, cache s2 = cache s1 →
      load_all_data net' s2 = (Done loaded, s2)
      ∧ requests (load_all_data net' s2).2 = requests s2.
Proof.
  unfold load_all_data, cache_data. intros Hfirst.
  assert (cache s1 = Some loaded) as Hstored.
  { destruct (cache s) as [v|] eqn:Es; [by simplify_eq|].
    destruct (load_from net CSV_FILES s) as [[v| |e] s0]; by simplify_eq. }
  split; [done|]. intros s2 ->. rewrite Hstored. done.
Qed.

End Memo.

Section Selection.
Context `{Runtime}.

#[local] Instance by_text_total (i : nat) : Total (by_text i).
Proof. intros r1 r2. unfold by_text. apply total, _. Qed.

#[local] Instance by_text_transitive (i : nat) : Transitive (by_text i).
Proof. intros r1 r2 r3. unfold by_text. apply transitivity. Qed.

Lemma insert_sorted_Permutation {A : Type} (R : relation A) `{!RelDecision R}
    (x : A) (l : list A) :
  insert_sorted R x l ≡ₚ x :: l.
Proof.
  induction l as [|y l IH]; [done|]. simpl.
  case_decide; [done|]. rewrite IH. apply Permutation_swap.
Qed.

Lemma insertion_sort_Permutation {A : Type} (R : relation A) `{!RelDecision R}
    (l : list A) :
  insertion_sort R l ≡ₚ l.
Proof.
  induction l as [|x l IH]; [done|].
  unfold insertion_sort in *. simpl.
  by rewrite insert_sorted_Permutation, IH.
Qed.

Lemma insert_sorted_sorted {A : Type} (R : relation A) `{!RelDecision R}
    `{!Total R, !Transitive R} (x : A) (l : list A) :
  StronglySorted R l → StronglySorted R (insert_sorted R x l).
Proof.
  induction 1 as [|y l Hl IH Hy]; simpl.
  { constructor; constructor. }
  case_decide as Hxy.
  - constructor; [by constructor|]. constructor; [done|].
    eapply Forall_impl; [exact Hy|]. intros z Hz. by transitivity y.
  - constructor; [done|].
    rewrite insert_sorted_Permutation. constructor; [|done].
    by destruct (total R x y).
Qed.

Lemma insertion_sort_sorted {A : Type} (R : relation A) `{!RelDecision R}
    `{!Total R, !Transitive R} (l : list A) :
  StronglySorted R (insertion_sort R l).
Proof.
  induction l as [|x l IH]; [constructor|].
  unfold insertion_sort in *. simpl. by apply insert_sorted_sorted.
Qed.

Lemma mask_selected (ic iv im : nat) (ch vs : Z) (models : list string)
    (r : list cell) :
  is_Some (chapter ic r) → is_Some (verse iv r) → is_Some (model im r) →
  mask ic iv im (Some ch) (Some vs) models r = true
  ↔ selected ic iv im ch vs models r.
Proof.
  unfold selected, mask, chapter, verse, model.
  intros [c Hc] [v Hv] [m Hm].
  destruct (cell_at ic r) as [|[zc| |]|]; simplify_eq/=.
  destruct (cell_at iv r) as [|[zv| |]|]; simplify_eq/=.
  destruct (cell_at im r) as [| |t]; simplify_eq/=.
  rewrite !andb_true_iff, !bool_decide_eq_true. split.
  - intros [[-> ->] Hin]. eauto.
  - intros ([= ->] & [= ->] & m' & [= <-] & Hin). done.
Qed.

Lemma filter_agree {A : Type} (P Q : A → Prop)
    `{!∀ x, Decision (P x), !∀ x, Decision (Q x)} (l : list A) :
  Forall (λ x, P x ↔ Q x) l → filter P l = filter Q l.
Proof.
  induction 1 as [|x l Hx _ IH]; [done|].
  rewrite !filter_cons, IH.
  destruct (decide (P x)), (decide (Q x)); tauto.
Qed.

Lemma strongly_sorted_on {A : Type} (R R' : relation A) (P : A → Prop)
    (l : list A) :
  (∀ x y, P x → P y → R x y → R' x y) →
  Forall P l → StronglySorted R l → StronglySorted R' l.
Proof.
  intros HR HP HS. induction HS as [|x l _ IH Hx]; [constructor|].
  apply Forall_cons in HP as [Px Pl]. constructor; [by apply IH|].
  apply Forall_forall. intros y Hy.
  apply HR; [done| |].
  - by eapply Forall_forall in Pl.
  - by eapply Forall_forall in Hx.
Qed.

(** C1. On a corpus, for every chapter, verse and set of models, the
    selection stage (the mask of lines 150-155 and the sort of line 171)
    returns the records of the corpus with that chapter, that verse and a
    model of the set, each as often as the corpus has it and no other
    record, in ascending order of the model's display name. *)
Theorem selection_is_exact_and_sorted (data : DataFrame) (ic iv im : nat)
    (ch vs : Z) (models : list string) :
  Corpus data ic iv im → models ≠ [] →
  ∃ shown,
    sort_values im (verse_data data ic iv im (Some ch) (Some vs) models)
      = Some shown
    ∧ columns shown = columns data
    ∧ rows shown ≡ₚ filter (selected ic iv im ch vs models) (rows data)
    ∧ (∀ r, r ∈ rows shown ↔ r ∈ rows data ∧ selected ic iv im ch vs models r)
    ∧ StronglySorted (by_model im) (rows shown).
Proof.
  intros [_ _ _ Htyped] _.
  assert (filter (λ r, mask ic iv im (Some ch) (Some vs) models r) (rows data)
          = filter (selected ic iv im ch vs models) (rows data)) as Hfilter.
  { apply filter_agree. eapply Forall_impl; [exact Htyped|].
    intros r (Hc & Hv & Hm). simpl.
    rewrite <- mask_selected by done. apply Is_true_true. }
  assert (Forall (λ r, is_Some (model im r))
            (filter (selected ic iv im ch vs models) (rows data))) as Htext.
  { apply Forall_forall. intros r [_ Hr]%list_elem_of_filter.
    eapply Forall_forall in Htyped; [|exact Hr]. tauto. }
  unfold sort_values, verse_data, loc. simpl. rewrite Hfilter.
  match goal with
  | |- context [forallb ?f ?l] => assert (forallb f l = true) as ->
  end.
  { apply Is_true_true, forallb_True.
    eapply Forall_impl; [exact Htext|]. intros r Hr.
    by apply bool_decide_pack. }
  eexists. split; [reflexivity|]. simpl.
  split; [done|]. split; [apply insertion_sort_Permutation|]. split.
  - intros r. rewrite insertion_sort_Permutation, list_elem_of_filter. tauto.
  - eapply (strongly_sorted_on (by_text im) _ (λ r, is_Some (model im r))).
    + intros r1 r2 [m1 E1] [m2 E2]. unfold by_text, by_model, model in *.
      rewrite E1, E2. simpl. eauto.
    + by rewrite insertion_sort_Permutation.
    + apply insertion_sort_sorted; apply _.
Qed.

End Selection.

Section Presenter.
Context `{Runtime}.

Lemma drawn_nil (s : session) : drawn [] s = s.
Proof. destruct s. unfold drawn. simpl. by rewrite app_nil_r. Qed.

Lemma drawn_drawn (a b : list element) (s : session) :
  drawn b (drawn a s) = drawn (a ++ b) s.
Proof. unfold drawn. simpl. by rewrite app_assoc. Qed.

Lemma for_each_run {A : Type} (body : A → script ()) (f : A → list element)
    (l : list A) (s : session) :
  (∀ x s, body x s = (Done (), drawn (f x) s)) →
  for_each body l s = (Done (), drawn (mjoin (f <$> l)) s).
Proof.
  intros Hbody. unfold for_each. revert s.
  induction l as [|x l IH]; intros s; simpl.
  - by rewrite drawn_nil.
  - unfold mbind, script_bind. rewrite Hbody, IH, drawn_drawn. done.
Qed.

Lemma shown_nonblank (c : cell) :
  shown c = true ↔ nonblank (Some c) = Some (strip (str c)).
Proof.
  unfold shown, nonblank, notna.
  destruct c as [|n|t]; simpl; [done| |];
    match goal with
    | |- context [String.eqb ?a ""] => destruct (String.eqb_spec a "")
    end; case_decide; simpl; split; congruence.
Qed.

Lemma shown_blank (c : cell) : shown c = false ↔ nonblank (Some c) = None.
Proof.
  unfold shown, nonblank, notna.
  destruct c as [|n|t]; simpl; [done| |];
    match goal with
    | |- context [String.eqb ?a ""] => destruct (String.eqb_spec a "")
    end; case_decide; simpl; split; congruence.
Qed.

Lemma shown_empty : shown (Str "") = false.
Proof. unfold shown. simpl. by rewrite strip_empty. Qed.

Lemma model_section_run (cols : list string) (im : nat) (row : list cell)
    (s : session) :
  (∀ at_, locate "translation" cols ≠ Several at_) →
  (∀ at_, locate "interpretation" cols ≠ Several at_) →
  model_section cols im row s = (Done (), drawn (section_of cols im row) s).
Proof.
  intros Ht Hi.
  unfold model_section, section_of, row_get, field.
  destruct (locate "translation" cols) as [|it|at_]; [| |by destruct (Ht at_)];
  destruct (locate "interpretation" cols) as [|ii|at_'];
    try (by destruct (Hi at_'));
  unfold mbind, script_bind, or_raise, mret, script_ret, draw; simpl;
  rewrite ?shown_empty, ?strip_empty; simpl;
  repeat match goal with
  | |- context [shown ?c] =>
      let E := fresh "E" in
      destruct (shown c) eqn:E;
      [apply shown_nonblank in E|apply shown_blank in E];
      simpl in E; try rewrite E; simpl
  end;
  unfold drawn; simpl; rewrite <- ?app_assoc; try reflexivity.
Qed.

(** X16. When the labels [translation] and [interpretation] are not
    repeated among the columns, the loop of lines 171-187 draws, for
    every record of the sorted selection in turn, the model name as a
    heading, then the labelled translation when the record has a
    translation that is present and not blank once trimmed, then the
    labelled interpretation on the same condition, then the rule; a
    record with neither gets the heading and the rule and nothing in
    between. *)
Theorem sections_follow_the_fields (cols : list string) (im : nat)
    (records : list (list cell)) (s : session) :
  (∀ at_, locate "translation" cols ≠ Several at_) →
  (∀ at_, locate "interpretation" cols ≠ Several at_) →
  for_each (model_section cols im) records s
    = (Done (), drawn (mjoin (section_of cols im <$> records)) s)
  ∧ ∀ r, r ∈ records →
      nonblank (field "translation" cols r) = None →
      nonblank (field "interpretation" cols r) = None →
      section_of cols im r
      = [Markdown ("### " +:+ str (cell_at im r)) false; Markdown "---" false].
Proof.
  intros Ht Hi. split.
  - apply for_each_run. intros r s0. by apply model_section_run.
  - intros r _ Et Ei. unfold section_of. by rewrite Et, Ei.
Qed.

End Presenter.

Section Header.
Context `{Runtime}.

Lemma model_section_draws (cols : list string) (im : nat) (row : list cell)
    (s s' : session) (out : outcome ()) :
  model_section cols im row s = (out, s') →
  ∃ page, s' = drawn page s ∧ Forall plain page.
Proof.
  unfold model_section, mbind, script_bind, or_raise, mret, script_ret, draw, raise.
  simpl.
  destruct (row_get "translation" cols row) as [t|]; simpl.
  2:{ intros [= <- <-]. eexists. split; [reflexivity|].
      repeat constructor. by eexists. }
  destruct (row_get "interpretation" cols row) as [i|], (shown t); simpl;
    try destruct (shown i); simpl;
    intros [= <- <-]; unfold drawn; simpl; rewrite <- ?app_assoc; simpl;
    (eexists; split; [reflexivity|]);
    repeat (apply List.Forall_cons; [by eexists|]); apply List.Forall_nil.
Qed.

Lemma for_each_draws {A : Type} (body : A → script ()) (P : element → Prop)
    (l : list A) :
  (∀ x s out s', body x s = (out, s') →
                 ∃ page, s' = drawn page s ∧ Forall P page) →
  ∀ s out s', for_each body l s = (out, s') →
              ∃ page, s' = drawn page s ∧ Forall P page.
Proof.
  intros Hbody. unfold for_each.
  induction l as [|x l IH]; intros s out s'; simpl.
  - intros [= <- <-]. exists []. by rewrite drawn_nil.
  - unfold mbind, script_bind.
    destruct (body x s) as [[[]| |e] s1] eqn:Ex;
      destruct (Hbody _ _ _ _ Ex) as (p1 & -> & HP1).
    + intros (p2 & -> & HP2)%IH. exists (p1 ++ p2).
      rewrite drawn_drawn. split; [done|]. by apply Forall_app.
    + intros [= <- <-]. eauto.
    + intros [= <- <-]. eauto.
Qed.

Lemma filter_none {A : Type} (P : A → Prop) `{!∀ x, Decision (P x)} (l : list A) :
  Forall (λ x, ¬ P x) l → filter P l = [].
Proof.
  induction 1 as [|x l Hx _ IH]; [done|].
  by rewrite filter_cons, decide_False.
Qed.

Lemma first_original (i : nat) (before after : list (list cell))
    (r : list cell) (t : string) :
  Forall (λ r, cell_at i r = NaN) before → cell_at i r = Str t →
  ∃ later,
    filter (λ c, notna c) (cell_at i <$> (before ++ r :: after)) = Str t :: later.
Proof.
  intros Hbefore Hr. rewrite fmap_app, filter_app, fmap_cons, filter_cons, Hr.
  rewrite filter_none.
  - simpl. eauto.
  - apply Forall_fmap. eapply Forall_impl; [exact Hbefore|].
    intros r' Hr'. simpl in *. rewrite Hr'. simpl. tauto.
Qed.

(** C2, as the code has it.  The shared header is the first original that
    is not missing among the matched records in the order of the corpus,
    that is the order of the file list and not the order of the model
    names; it is trimmed and drawn once, with a rule under it, above the
    heading of the verse and the sections of the models.  With no column
    [orig], or with no matched record that has an original, nothing is
    drawn for it. *)
Theorem header_is_first_original_in_table_order (data : DataFrame)
    (ic iv im : nat) (sc sv : option Z) (models : list string) (s : session) :
  (locate "orig" (columns data) = Missing →
     arabic_header (verse_data data ic iv im sc sv models) s = (Done (), s))
  ∧ ∀ i, locate "orig" (columns data) = Single i →
      (Forall (λ r, cell_at i r = NaN)
         (rows (verse_data data ic iv im sc sv models)) →
       arabic_header (verse_data data ic iv im sc sv models) s = (Done (), s))
      ∧ ∀ before r after t,
          rows (verse_data data ic iv im sc sv models) = before ++ r :: after →
          Forall (λ r, cell_at i r = NaN) before →
          cell_at i r = Str t →
          arabic_header (verse_data data ic iv im sc sv models) s
            = (Done (), drawn (header_of (strip t)) s)
          ∧ ∀ out s',
              show_verse data ic iv im sc sv models s = (out, s') →
              ∃ page,
                s' = drawn (header_of (strip t) ++ verse_heading sc sv :: page) s
                ∧ Forall plain page.
Proof.
  split.
  { intros Hmissing. unfold arabic_header. simpl. by rewrite Hmissing. }
  intros i Hi. split.
  { intros Hnone. unfold arabic_header. simpl. rewrite Hi.
    rewrite filter_none; [done|].
    apply Forall_fmap. eapply Forall_impl; [exact Hnone|].
    intros r' Hr'. simpl in *. rewrite Hr'. simpl. tauto. }
  intros before r after t Hrows Hbefore Hr.
  assert (arabic_header (verse_data data ic iv im sc sv models) s
          = (Done (), drawn (header_of (strip t)) s)) as Hheader.
  { unfold arabic_header. simpl. rewrite Hi.
    destruct (first_original i before after r t Hbefore Hr) as [later Hfirst].
    unfold verse_data in Hrows. simpl in Hrows. rewrite Hrows, Hfirst.
    unfold mbind, script_bind, mret, script_ret, draw, drawn, header_of. simpl.
    by rewrite <- app_assoc. }
  split; [done|].
  intros out s'. unfold show_verse, mbind at 1 2, script_bind at 1 2.
  rewrite Hheader. simpl.
  unfold mbind, script_bind, or_raise.
  destruct (sort_values im _) as [shown|]; simpl.
  - intros (page & -> & Hpage)%(for_each_draws _ plain).
    + exists page. split; [|done]. unfold drawn, verse_heading. simpl.
      by rewrite <- !app_assoc.
    + intros. by eapply model_section_draws.
  - intros [= <- <-]. exists []. split; [|done].
    unfold drawn, verse_heading. simpl. by rewrite <- !app_assoc.
Qed.

End Header.

Section Guard.
Context `{Runtime}.

Lemma quiet_ret {A : Type} (Q : A → Prop) (a : A) : Q a → quiet Q (mret a).
Proof.
  intros Ha s out s' [= <- <-]. split.
  - exists []. by rewrite app_nil_r.
  - by intros ? [= <-].
Qed.

Lemma quiet_raise {A : Type} (Q : A → Prop) (e : exn) : quiet Q (raise e).
Proof.
  intros s out s' [= <- <-]. split; [|done].
  exists []. by rewrite app_nil_r.
Qed.

Lemma quiet_or_raise {A : Type} (e : exn) (o : option A) :
  quiet (λ _, True) (or_raise e o).
Proof. destruct o; [by apply quiet_ret|apply quiet_raise]. Qed.

Lemma quiet_draw (e : element) : ¬ verse_output e → quiet (λ _, True) (draw e).
Proof.
  intros He s out s' [= <- <-]. split; [|done].
  exists [e]. split; [done|]. by constructor.
Qed.

Ltac by_quiet_draw := apply quiet_draw; simpl; tauto.

Lemma quiet_bind {A B : Type} (Q : A → Prop) (R : B → Prop)
    (m : script A) (f : A → script B) :
  quiet Q m → (∀ a, Q a → quiet R (f a)) → quiet R (m ≫= f).
Proof.
  intros Hm Hf s out s'. unfold mbind, script_bind.
  destruct (m s) as [[a| |e] s1] eqn:Em;
    destruct (Hm _ _ _ Em) as [(p1 & E1 & HP1) HQ].
  - intros Ef. destruct (Hf a (HQ a eq_refl) _ _ _ Ef) as [(p2 & E2 & HP2) HR].
    split; [|done]. exists (p1 ++ p2).
    rewrite E2, E1, app_assoc. split; [done|]. by apply Forall_app.
  - intros [= <- <-]. split; [eauto|done].
  - intros [= <- <-]. split; [eauto|done].
Qed.

Lemma quiet_weaken {A : Type} (Q : A → Prop) (m : script A) :
  quiet Q m → quiet (λ _, True) m.
Proof. intros Hm s out s' E. destruct (Hm _ _ _ E). done. Qed.

Lemma quiet_warnings (errors : list string) :
  quiet (λ _, True) (for_each (λ err, draw (Warning err)) errors).
Proof.
  intros s out s' E.
  rewrite (for_each_run _ (λ err, [Warning err])) in E by done.
  injection E as <- <-. split; [|done].
  eexists. split; [reflexivity|].
  induction errors as [|e errors IH]; simpl; [constructor|].
  constructor; [tauto|exact IH].
Qed.

Lemma quiet_load (net : network) : quiet (λ _, True) (load_all_data net).
Proof.
  unfold load_all_data. generalize CSV_FILES. intros files.
  intros s out s'. unfold cache_data.
  destruct (cache s) as [v|].
  { intros [= <- <-]. split; [|done]. exists []. by rewrite app_nil_r. }
  rewrite load_from_run.
  destruct (tagged net files) as [|df frames].
  { intros [= <- <-]. split; [|done]. exists [no_data]. split; [done|].
    constructor; [|constructor]. simpl. tauto. }
  destruct (normalise_pure (df :: frames) (requested files s))
    as (r & -> & _).
  destruct r; intros [= <- <-]; (split; [|done]);
    exists []; by rewrite app_nil_r.
Qed.

Lemma quiet_series (label : string) (data : DataFrame) :
  quiet (λ _, True) (series label data).
Proof.
  unfold series. destruct (locate label (columns data));
    [apply quiet_raise|by apply quiet_ret|apply quiet_raise].
Qed.

Lemma quiet_selectbox (usr : user) (label : string) (options : list Z)
    (format_func : Z → string) :
  quiet (λ _, True) (sidebar_selectbox usr label options format_func).
Proof.
  unfold sidebar_selectbox.
  apply (quiet_bind (λ _, True)); [by_quiet_draw|].
  intros _ _. by apply quiet_ret.
Qed.

Lemma quiet_checkbox (usr : user) (label : string) (value : bool) :
  quiet (λ _, True) (sidebar_checkbox usr label value).
Proof.
  unfold sidebar_checkbox.
  apply (quiet_bind (λ _, True)); [by_quiet_draw|].
  intros _ _. by apply quiet_ret.
Qed.

Lemma quiet_multiselect (usr : user) (label : string)
    (options default : list string) :
  quiet (λ chosen, chosen = multiselect usr label options default)
        (sidebar_multiselect usr label options default).
Proof.
  unfold sidebar_multiselect.
  apply (quiet_bind (λ _, True)); [by_quiet_draw|].
  intros _ _. by apply quiet_ret.
Qed.

Lemma prompts_bind {A : Type} (Q : A → Prop) (m : script A)
    (f : A → script ()) :
  quiet Q m → (∀ a, Q a → prompts (f a)) → prompts (m ≫= f).
Proof.
  intros Hm Hf s out s'. unfold mbind, script_bind.
  destruct (m s) as [[a| |e] s1] eqn:Em;
    destruct (Hm _ _ _ Em) as [(p1 & E1 & HP1) HQ].
  - intros Ef. destruct (Hf a (HQ a eq_refl) _ _ _ Ef) as (p2 & E2 & HP2 & Hlast).
    exists (p1 ++ p2). rewrite E2, E1, app_assoc.
    split; [done|]. split; [by apply Forall_app|].
    intros Hout. destruct (Hlast Hout) as [before ->].
    exists (p1 ++ before). by rewrite app_assoc.
  - intros [= <- <-]. exists p1. done.
  - intros [= <- <-]. exists p1. done.
Qed.

Lemma prompts_no_selection : prompts (draw no_selection).
Proof.
  intros s out s' [= <- <-]. exists [no_selection].
  split; [done|]. split; [|by exists []].
  constructor; [|constructor]. simpl. tauto.
Qed.

(** With an empty answer to the multi-select, whatever a run of [main]
    ends with, nothing of a verse is on the page, and a run that reaches
    its end has drawn the prompt last. *)
Lemma main_prompts (net : network) (usr : user)
    (s s' : session) (out : outcome ()) :
  (∀ options default, multiselect usr "Models" options default = []) →
  main net usr s = (out, s') →
  ∃ page,
    screen s' = screen s ++ page_head ++ page
    ∧ Forall (λ e, ¬ verse_output e) page
    ∧ (out = Done () → ∃ before, page = before ++ [no_selection]).
Proof.
  intros Hnone.
  unfold main, mbind at 1 2 3, script_bind at 1 2 3. simpl.
  intros Hrest.
  match type of Hrest with
  | ?rest ?s0 = _ => assert (prompts rest) as Hprompts
  end.
  2:{ destruct (Hprompts _ _ _ Hrest) as (page & E & HP & Hlast).
      exists page. simpl in E. rewrite E, <- !app_assoc. done. }
  clear Hrest.
  apply (prompts_bind (λ _, True)); [apply quiet_load|].
  intros [data load_errors] _.
  apply (prompts_bind (λ _, True)).
  { destruct load_errors; [by apply quiet_ret|].
    apply (quiet_bind (λ _, True)); [by_quiet_draw|].
    intros _ _. apply quiet_warnings. }
  intros _ _.
  apply (prompts_bind (λ _, True)); [by_quiet_draw|]. intros _ _.
  apply (prompts_bind (λ _, True)); [apply quiet_series|]. intros ic _.
  apply (prompts_bind (λ _, True)); [apply quiet_or_raise|]. intros chapters _.
  apply (prompts_bind (λ _, True)); [apply quiet_selectbox|].
  intros selected_chapter _.
  apply (prompts_bind (λ _, True)); [apply quiet_series|]. intros iv _.
  apply (prompts_bind (λ _, True)); [apply quiet_or_raise|]. intros verses _.
  apply (prompts_bind (λ _, True)); [apply quiet_selectbox|].
  intros selected_verse _.
  apply (prompts_bind (λ _, True)); [by_quiet_draw|]. intros _ _.
  apply (prompts_bind (λ _, True)); [apply quiet_series|]. intros im _.
  apply (prompts_bind (λ _, True)); [apply quiet_or_raise|]. intros names _.
  apply (prompts_bind (λ _, True)); [apply quiet_checkbox|]. intros select_all _.
  apply (prompts_bind (λ chosen, chosen = [])).
  { destruct select_all; intros s0 out0 s0' E;
      destruct (quiet_multiselect _ _ _ _ _ _ _ E) as [Hpage Hvalue];
      (split; [done|]); intros a Ha; rewrite (Hvalue a Ha); apply Hnone. }
  intros chosen ->. apply prompts_no_selection.
Qed.

End Guard.

Section Models.
Context `{Runtime} (net : network).

(** The model column of the corpus holds the display names of the
    resources the rows came from. *)
Lemma loaded_models_are_names (files : list string) (s s' : session)
    (data : DataFrame) (errors : list string) (im : nat) :
  (∀ url df, net url = Parsed df →
             Forall (λ r, length r = length (columns df)) (rows df)) →
  lower (strip "Model") = "model" →
  load_from net files s = (Done (data, errors), s') →
  locate "model" (columns data) = Single im →
  Forall (λ r, ∃ f df, f ∈ files ∧ net (url_of f) = Parsed df
                       ∧ model im r = Some (display_name_of f))
    (rows data).
Proof.
  intros Hrect Hmodel Hload Him.
  apply load_from_done in Hload
    as (_ & _ & _ & ic & iv & Hc & Hv & Hne & Hcols & Hrows).
  apply locate_Single in Hc as [Hc _]. apply locate_Single in Hv as [Hv _].
  apply locate_Single in Him as [Him Honly].
  assert (im ≠ ic) as Hic by (intros ->; congruence).
  assert (im ≠ iv) as Hiv by (intros ->; congruence).
  apply Forall_forall. intros r' Hr'.
  destruct (cast_from_table _ _ _ _ _ Hrows Hr') as (r_m & Hr_m & _ & Hcast).
  apply cast_of_cells in Hcast as (_ & _ & _ & Hother); [|done].
  unfold model. rewrite (Hother im Hic Hiv).
  destruct (merged_row_from net files r_m Hr_m) as (table & r & Htable & Hr & Hunder).
  destruct (tagged_from net files table Htable) as (f & df & Hf & Hnet & ->).
  destruct (assign_cell "Model" (Str (display_name_of f)) df r
              (Hrect _ _ Hnet) Hr) as (i & rest & Epos & Ecell).
  exists f, df. split; [done|]. split; [done|].
  assert ("Model" ∈ columns (concat (tagged net files))) as Hin.
  { unfold concat. cbn [columns]. apply elem_of_unique, list_elem_of_join.
    exists (columns (assign "Model" (Str (display_name_of f)) df)). split.
    - apply list_elem_of_lookup. exists i. apply positions_spec.
      rewrite Epos. left.
    - apply list_elem_of_fmap. eauto. }
  apply list_elem_of_lookup in Hin as [j Hj].
  assert (j = im) as ->.
  { apply Honly. rewrite Hcols. unfold merged. cbn [columns].
    by rewrite list_lookup_fmap, Hj, <- Hmodel. }
  specialize (Hunder im "Model" Hj). unfold under in Hunder.
  rewrite Epos, Ecell in Hunder. by rewrite (same_value_text _ _ Hunder).
Qed.

(** What [load_all_data] returns is a corpus as the view reads it, as soon
    as one column is labelled [model]. *)
Lemma loaded_is_a_corpus (files : list string) (s s' : session)
    (data : DataFrame) (errors : list string) (im : nat) :
  (∀ url df, net url = Parsed df →
             Forall (λ r, length r = length (columns df)) (rows df)) →
  lower (strip "Model") = "model" →
  load_from net files s = (Done (data, errors), s') →
  locate "model" (columns data) = Single im →
  ∃ ic iv, Corpus data ic iv im.
Proof.
  intros Hrect Hmodel Hload Him.
  pose proof (loaded_models_are_names _ _ _ _ _ _ Hrect Hmodel Hload Him) as Hnames.
  apply load_from_done in Hload
    as (_ & _ & _ & ic & iv & Hc & Hv & Hne & _ & Hrows).
  exists ic, iv. split; try done.
  apply Forall_forall. intros r' Hr'.
  destruct (cast_from_table _ _ _ _ _ Hrows Hr') as (r & _ & _ & Hcast).
  destruct (cast_of_typed _ _ _ _ _ Hne Hcast) as [(c & Ec & _) (v & Ev & _)].
  eapply Forall_forall in Hnames as (f & df & _ & _ & Em); [|exact Hr'].
  rewrite Ec, Ev, Em. eauto.
Qed.

End Models.

(** ** Further properties of the loader *)

Section Edges.
Context `{Runtime} (net : network).

Lemma locate_absent (label : string) (cols : list string) :
  label ∉ cols → locate label cols = Missing.
Proof.
  intros Hno. unfold locate.
  destruct (positions label cols) as [|i rest] eqn:E; [done|].
  destruct Hno. apply list_elem_of_lookup. exists i.
  apply positions_spec. rewrite E. left.
Qed.

Lemma cached_load_requests (files : list string) (s s' : session)
    (out : outcome (DataFrame * list string)) :
  cache s = None → cache_data (load_from net files) s = (out, s') →
  requests s' = requests s ++ (url_of <$> files)
  ∧ (cache s' = None ∨ ∃ loaded, out = Done loaded ∧ cache s' = Some loaded).
Proof.
  intros Hcache. unfold cache_data. rewrite Hcache, load_from_run.
  destruct (tagged net files) as [|df frames].
  { intros [= <- <-]. simpl. auto. }
  destruct (normalise_pure (df :: frames) (requested files s))
    as (r & -> & _).
  destruct r as [d| |e]; intros [= <- <-]; simpl; eauto.
Qed.

(** X1. When the merged table has no column that normalises to [chapter], or
    has one and none that normalises to [verse], the loader raises the
    [KeyError] of that label after all requests, and returns nothing. *)
Theorem missing_column_raises_key_error (files : list string) (s : session) :
  tagged net files ≠ [] →
  ("chapter" ∉ columns (merged net files) →
     load_from net files s = (Raised (KeyError "chapter"), requested files s))
  ∧ (∀ ic, locate "chapter" (columns (merged net files)) = Single ic →
       "verse" ∉ columns (merged net files) →
       load_from net files s = (Raised (KeyError "verse"), requested files s)).
Proof.
  intros Hsome.
  assert (load_from net files s
          = match normalise (tagged net files) (requested files s) with
            | (Done combined, s') => (Done (combined, report net files), s')
            | (Stopped, s') => (Stopped, s')
            | (Raised e, s') => (Raised e, s')
            end) as ->.
  { rewrite load_from_run. by destruct (tagged net files). }
  unfold merged. cbn [columns].
  unfold normalise, numeric_series.
  set (df0 := {| columns := (λ c, lower (strip c))
                              <$> columns (concat (tagged net files));
                 rows := rows (concat (tagged net files)) |}).
  change (columns df0)
    with ((λ c, lower (strip c)) <$> columns (concat (tagged net files))).
  split.
  - intros Hno%locate_absent. by rewrite Hno.
  - intros ic Hc Hno%locate_absent. rewrite Hc.
    unfold mbind at 1, script_bind at 1, mret at 1, script_ret at 1.
    cbv beta iota.
    rewrite (proj1 (numeric_column_spec ic df0)).
    change (columns df0)
      with ((λ c, lower (strip c)) <$> columns (concat (tagged net files))).
    by rewrite Hno.
Qed.

(** X2. An infinite chapter or verse is no missing value: the row is not
    dropped, the cast to integers raises on it, and the loader returns
    nothing, whatever the other rows hold. *)
Theorem infinite_value_raises (files : list string) (s : session)
    (ic iv : nat) (r : list cell) :
  locate "chapter" (columns (merged net files)) = Single ic →
  locate "verse" (columns (merged net files)) = Single iv →
  r ∈ rows (merged net files) →
  to_numeric (cell_at ic r) ≠ NaN →
  to_numeric (cell_at iv r) ≠ NaN →
  (∃ negative, to_numeric (cell_at ic r) = Num (Inf negative))
  ∨ (∃ negative, to_numeric (cell_at iv r) = Num (Inf negative)) →
  load_from net files s = (Raised IntCastingNaNError, requested files s).
Proof.
  intros Hc Hv Hr Hcn Hvn Hinf.
  pose proof (chapter_verse_apart _ _ _ Hc Hv) as Hne.
  rewrite load_from_run.
  destruct (tagged net files) as [|df frames] eqn:Et.
  { unfold merged in Hr. rewrite Et in Hr. simpl in Hr.
    by apply not_elem_of_nil in Hr. }
  rewrite <- Et. unfold merged in Hc, Hv, Hr. cbn [columns rows] in Hc, Hv, Hr.
  rewrite (normalise_run _ _ ic iv Hc Hv).
  destruct (mapM _ _) as [table|] eqn:Hrows; [|done].
  apply mapM_Some in Hrows. rewrite filter_fmap_commute in Hrows.
  apply Forall2_fmap_l in Hrows.
  set (rs := rows (concat (tagged net files))) in *.
  assert (r ∈ filter (λ r, complete ic iv
                             (coerce_row ic iv (floating ic rs) (floating iv rs) r))
                rs) as Hin.
  { apply list_elem_of_filter. split; [|done].
    apply Is_true_true. rewrite complete_coerce_row by done.
    unfold numbered. rewrite !readable_to_numeric.
    by destruct (to_numeric (cell_at ic r)), (to_numeric (cell_at iv r)). }
  apply list_elem_of_lookup in Hin as [i Hi].
  destruct (Forall2_lookup_l _ _ _ _ _ Hrows Hi) as (r' & _ & Hcast).
  apply cast_row_cells in Hcast as (_ & Ecast & Vcast & _); [|done].
  destruct (coerce_row_cells ic iv (floating ic rs) (floating iv rs) r Hne)
    as [Ec Ev].
  rewrite Ec in Ecast. rewrite Ev in Vcast.
  apply astype_coerce_finite in Ecast. apply astype_coerce_finite in Vcast.
  unfold finite in Ecast, Vcast.
  destruct Hinf as [[b Hb]|[b Hb]].
  - by rewrite Hb in Ecast.
  - by rewrite Hb in Vcast.
Qed.

(** X3. The normalisation touches nothing but the chapter and the verse: the
    rows of the corpus are, one for one and in the same order, the merged
    rows whose chapter and verse are readable, and every other cell of
    such a row is in the corpus as it was in the resource. *)
Theorem other_columns_are_untouched (files : list string) (s s' : session)
    (data : DataFrame) (errors : list string) :
  load_from net files s = (Done (data, errors), s') →
  ∃ ic iv,
    locate "chapter" (columns data) = Single ic
    ∧ locate "verse" (columns data) = Single iv
    ∧ Forall2 (λ r r', length r' = length r
                       ∧ ∀ j, j ≠ ic → j ≠ iv → cell_at j r' = cell_at j r)
        (filter (λ r, notna (to_numeric (cell_at ic r))
                      && notna (to_numeric (cell_at iv r)))
           (rows (merged net files)))
        (rows data).
Proof.
  intros Hload.
  apply load_from_done in Hload
    as (_ & _ & _ & ic & iv & Hc & Hv & Hne & _ & Hrows).
  exists ic, iv. split; [done|]. split; [done|].
  erewrite list_filter_iff.
  - eapply Forall2_impl; [exact Hrows|].
    intros r r' Hcast.
    apply cast_of_cells in Hcast as (Hlen & _ & _ & Hother); [|done]. done.
  - intros r. simpl. unfold numbered. by rewrite !readable_to_numeric.
Qed.

End Edges.

Section Retry.
Context `{Runtime}.

(** X4. A load that does not return stores nothing: the call after it starts
    from an empty cache and requests every file again. *)
Theorem failed_load_is_not_cached (net net' : network) (s s' : session)
    (out : outcome (DataFrame * list string)) :
  cache s = None →
  load_all_data net s = (out, s') →
  (∀ loaded, out ≠ Done loaded) →
  cache s' = None
  ∧ requests (load_all_data net' s').2
    = requests s ++ (url_of <$> CSV_FILES) ++ (url_of <$> CSV_FILES).
Proof.
  unfold load_all_data. generalize CSV_FILES. intros files Hcache Hload Hfailed.
  destruct (cached_load_requests net _ _ _ _ Hcache Hload)
    as [Hreq [Hnone|(v & -> & _)]]; [|by destruct (Hfailed v)].
  split; [done|].
  destruct (cache_data (load_from net' files) s') as [out' s''] eqn:Hagain.
  apply cached_load_requests in Hagain as [Hreq' _]; [|done].
  simpl. by rewrite Hreq', Hreq, <- app_assoc.
Qed.

End Retry.

(** ** Further properties of the names of the resources *)

Section Names.
Context `{Runtime} (net : network).

Lemma substring_prefix (key rest : string) :
  substring 0 (String.length key) (key +:+ rest) = key.
Proof.
  induction key as [|c key IH].
  - by destruct rest.
  - change (String c (substring 0 (String.length key) (key +:+ rest))
            = String c key).
    by rewrite IH.
Qed.

Lemma substring_all (s : string) : substring 0 (String.length s) s = s.
Proof. induction s as [|c s IH]; simpl; [done|]. by rewrite IH. Qed.

Lemma substring_suffix (key rest : string) :
  substring (String.length key) (String.length rest) (key +:+ rest) = rest.
Proof.
  induction key as [|c key IH]; [apply substring_all|exact IH].
Qed.

Lemma length_app_string (a b : string) :
  String.length (a +:+ b) = String.length a + String.length b.
Proof.
  induction a as [|c a IH]; [reflexivity|].
  change (S (String.length (a +:+ b)) = S (String.length a + String.length b)).
  by rewrite IH.
Qed.

Lemma string_app_empty (s : string) : s +:+ "" = s.
Proof.
  induction s as [|c s IH]; [reflexivity|].
  change (String c (s +:+ "") = String c s). by rewrite IH.
Qed.

Lemma removesuffix_app (key suffix : string) :
  removesuffix (key +:+ suffix) suffix = key.
Proof.
  unfold removesuffix, endswith. rewrite length_app_string.
  replace (String.length key + String.length suffix - String.length suffix)
    with (String.length key) by lia.
  rewrite substring_suffix, substring_prefix, String.eqb_refl.
  rewrite bool_decide_true by lia. simpl.
  destruct (String.eqb_spec suffix "") as [->|_]; simpl; [|done].
  apply string_app_empty.
Qed.

(** X5. Lines 53-54: the display name of a file is looked up under the file
    name without its extension, and a key the table does not have stands
    for itself; a name that does not end in the extension is looked up
    whole. *)
Theorem display_name_is_looked_up_by_key (key filename : string) :
  display_name_of (key +:+ ".csv") = default key (MODEL_DISPLAY_NAMES !! key)
  ∧ (MODEL_DISPLAY_NAMES !! key = None → display_name_of (key +:+ ".csv") = key)
  ∧ (endswith filename ".csv" = false →
     display_name_of filename = default filename (MODEL_DISPLAY_NAMES !! filename)).
Proof.
  unfold display_name_of. rewrite removesuffix_app. split; [done|]. split.
  - by intros ->.
  - intros Hno. unfold removesuffix. rewrite Hno. done.
Qed.

(** X6. The model column of the corpus holds, in every row, the display name
    of a resource that was fetched and parsed: a resource that failed to
    load has no row, and its name is among the models of the corpus only
    if a loaded resource bears the same name. *)
Theorem models_are_those_of_loaded_resources (files : list string)
    (s s' : session) (data : DataFrame) (errors : list string) (im : nat) :
  (∀ url df, net url = Parsed df →
             Forall (λ r, length r = length (columns df)) (rows df)) →
  lower (strip "Model") = "model" →
  load_from net files s = (Done (data, errors), s') →
  locate "model" (columns data) = Single im →
  Forall (λ r, ∃ f df, f ∈ files ∧ net (url_of f) = Parsed df
                       ∧ model im r = Some (display_name_of f))
    (rows data).
Proof. apply loaded_models_are_names. Qed.

End Names.

Section Files.

(** X7. Lines 8-42: every file of the list ends in [.csv] and has its entry in
    the table of display names, no two files share a display name or a
    URL, and the table names no model the list does not load. *)
Theorem every_file_has_its_own_name :
  Forall (λ f, ∃ key, f = key +:+ ".csv"
                      ∧ MODEL_DISPLAY_NAMES !! key = Some (display_name_of f))
    CSV_FILES
  ∧ NoDup (display_name_of <$> CSV_FILES)
  ∧ NoDup (url_of <$> CSV_FILES)
  ∧ size MODEL_DISPLAY_NAMES = length CSV_FILES.
Proof.
  split.
  { unfold CSV_FILES.
    repeat (apply List.Forall_cons;
              [cbv beta;
               match goal with
               | |- ∃ key, ?f = _ ∧ _ => exists (removesuffix f ".csv")
               end; split; vm_compute; reflexivity|]).
    apply List.Forall_nil. }
  split; [|split].
  - apply (bool_decide_unpack _). vm_compute. exact I.
  - apply (bool_decide_unpack _). vm_compute. exact I.
  - vm_compute. reflexivity.
Qed.

End Files.

(** ** Further properties of the view *)

Section Options.

Lemma unique_elem_of {A : Type} `{EqDecision A} (l : list A) (x : A) :
  x ∈ unique l ↔ x ∈ l.
Proof.
  induction l as [|y l IH]; [done|].
  cbn [unique]. rewrite !elem_of_cons, list_elem_of_filter, IH.
  destruct (decide (x = y)); intuition.
Qed.

Lemma unique_NoDup {A : Type} `{EqDecision A} (l : list A) : NoDup (unique l).
Proof.
  induction l as [|y l IH]; [constructor|].
  cbn [unique]. constructor.
  - rewrite list_elem_of_filter. intros [Hne _]. by destruct Hne.
  - by apply NoDup_filter.
Qed.

Lemma strictly_sorted {A : Type} (R : relation A) (l : list A) :
  StronglySorted R l → NoDup l → StronglySorted (λ a b, R a b ∧ a ≠ b) l.
Proof.
  induction 1 as [|x l _ IH Hx]; intros Hnd; [constructor|].
  apply NoDup_cons in Hnd as [Hnotin Hnd]. constructor; [by apply IH|].
  apply Forall_forall. intros y Hy. split.
  - by eapply Forall_forall in Hx.
  - intros ->. done.
Qed.

(** X8. [sorted(values.unique())], lines 111, 118-120 and 130: the choice set
    of a widget lists every value of the column once and no other value,
    in strictly ascending order. *)
Theorem choice_sets_are_strictly_ascending (numbers : list Z)
    (names : list string) :
  StronglySorted Z.lt (sorted_unique_int numbers)
  ∧ (∀ x, x ∈ sorted_unique_int numbers ↔ x ∈ numbers)
  ∧ StronglySorted (λ a b, String.le a b ∧ a ≠ b) (sorted_unique_text names)
  ∧ (∀ x, x ∈ sorted_unique_text names ↔ x ∈ names).
Proof.
  unfold sorted_unique_int, sorted_unique_text. repeat split.
  - eapply (strongly_sorted_on (λ a b, Z.le a b ∧ a ≠ b) _ (λ _, True)).
    + intros x y _ _ [? ?]. lia.
    + by apply Forall_forall.
    + apply strictly_sorted.
      * apply StronglySorted_merge_sort; apply _.
      * rewrite merge_sort_Permutation. apply unique_NoDup.
  - rewrite merge_sort_Permutation. apply unique_elem_of.
  - rewrite merge_sort_Permutation. apply unique_elem_of.
  - apply strictly_sorted.
    + apply StronglySorted_merge_sort; apply _.
    + rewrite merge_sort_Permutation. apply unique_NoDup.
  - rewrite merge_sort_Permutation. apply unique_elem_of.
  - rewrite merge_sort_Permutation. apply unique_elem_of.
Qed.

Lemma chapter_eq_scalar (ic : nat) (r : list cell) (ch : Z) :
  is_Some (chapter ic r) →
  eq_scalar (cell_at ic r) (Some ch) = true ↔ chapter ic r = Some ch.
Proof.
  unfold chapter. intros [c Hc].
  destruct (cell_at ic r) as [|[z| |]|]; simplify_eq/=.
  rewrite bool_decide_eq_true. split; congruence.
Qed.

(** X9. Lines 118-155: the verse choice set depends on the chapter: it holds
    the verses of the records of that chapter and no other, so with every
    model of the corpus selected the selection of an offered verse is
    never empty. *)
Theorem offered_verse_has_a_record (data : DataFrame) (ic iv im : nat)
    (ch vs : Z) (models : list string) :
  Corpus data ic iv im →
  (vs ∈ verses_of data ic iv (Some ch)
   ↔ ∃ r, r ∈ rows data ∧ chapter ic r = Some ch ∧ verse iv r = Some vs)
  ∧ (vs ∈ verses_of data ic iv (Some ch) →
     (∀ m, m ∈ models_of data im → m ∈ models) →
     ∃ r, r ∈ rows (verse_data data ic iv im (Some ch) (Some vs) models)
          ∧ chapter ic r = Some ch ∧ verse iv r = Some vs).
Proof.
  intros [_ _ _ Htyped].
  assert (vs ∈ verses_of data ic iv (Some ch)
          ↔ ∃ r, r ∈ rows data ∧ chapter ic r = Some ch ∧ verse iv r = Some vs)
    as Hoffered.
  { unfold verses_of, sorted_unique_int.
    rewrite merge_sort_Permutation, unique_elem_of, list_elem_of_omap.
    split.
    - intros (r & [Hch Hr]%list_elem_of_filter & Hverse).
      exists r. split; [done|]. split; [|done].
      eapply Forall_forall in Htyped as (Hc & _); [|exact Hr].
      by apply chapter_eq_scalar, Is_true_true.
    - intros (r & Hr & Hchapter & Hverse).
      exists r. split; [|done]. apply list_elem_of_filter. split; [|done].
      apply Is_true_true, chapter_eq_scalar; [by rewrite Hchapter|done]. }
  split; [exact Hoffered|].
  intros (r & Hr & Hchapter & Hverse)%Hoffered Hall.
  eapply Forall_forall in Htyped as (Hc & Hv & [m Hm]); [|exact Hr].
  exists r. split; [|done].
  unfold verse_data, loc. simpl. apply list_elem_of_filter. split; [|done].
  apply Is_true_true, mask_selected; eauto.
  repeat split; try done. exists m. split; [done|]. apply Hall.
  unfold models_of, sorted_unique_text.
  rewrite merge_sort_Permutation, unique_elem_of.
  apply list_elem_of_omap. eauto.
Qed.

End Options.

Section Local.
Context `{Runtime}.

Lemma local_ret {A : Type} (a : A) : local (mret a).
Proof. intros s out s' [= <- <-]. repeat split. exists []. by rewrite app_nil_r. Qed.

Lemma local_raise {A : Type} (e : exn) : local (raise (A := A) e).
Proof. intros s out s' [= <- <-]. repeat split. exists []. by rewrite app_nil_r. Qed.

Lemma local_or_raise {A : Type} (e : exn) (o : option A) : local (or_raise e o).
Proof. destruct o; [apply local_ret|apply local_raise]. Qed.

Lemma local_draw (e : element) : local (draw e).
Proof. intros s out s' [= <- <-]. repeat split. by exists [e]. Qed.

Lemma local_bind {A B : Type} (m : script A) (f : A → script B) :
  local m → (∀ a, local (f a)) → local (m ≫= f).
Proof.
  intros Hm Hf s out s'. unfold mbind, script_bind.
  destruct (m s) as [[a| |e] s1] eqn:Em;
    destruct (Hm _ _ _ Em) as (Hr1 & Hc1 & p1 & Hp1).
  - intros Ef. destruct (Hf a _ _ _ Ef) as (Hr2 & Hc2 & p2 & Hp2).
    split; [congruence|]. split; [congruence|].
    exists (p1 ++ p2). by rewrite Hp2, Hp1, app_assoc.
  - intros [= <- <-]. eauto.
  - intros [= <- <-]. eauto.
Qed.

Lemma local_for_each {A : Type} (body : A → script ()) (l : list A) :
  (∀ x, local (body x)) → local (for_each body l).
Proof.
  intros Hbody. unfold for_each.
  induction l as [|x l IH]; simpl; [apply local_ret|].
  apply local_bind; [apply Hbody|]. intros []. exact IH.
Qed.

Lemma local_series (label : string) (data : DataFrame) : local (series label data).
Proof.
  unfold series. destruct (locate label (columns data));
    [apply local_raise|apply local_ret|apply local_raise].
Qed.

Lemma local_selectbox (usr : user) (label : string) (options : list Z)
    (format_func : Z → string) :
  local (sidebar_selectbox usr label options format_func).
Proof.
  apply local_bind; [apply local_draw|]. intros _. apply local_ret.
Qed.

Lemma local_checkbox (usr : user) (label : string) (value : bool) :
  local (sidebar_checkbox usr label value).
Proof.
  apply local_bind; [apply local_draw|]. intros _. apply local_ret.
Qed.

Lemma local_multiselect (usr : user) (label : string)
    (options default : list string) :
  local (sidebar_multiselect usr label options default).
Proof.
  apply local_bind; [apply local_draw|]. intros _. apply local_ret.
Qed.

Lemma local_arabic_header (verse_data : DataFrame) :
  local (arabic_header verse_data).
Proof.
  unfold arabic_header.
  destruct (locate "orig" (columns verse_data)) as [|i|at_].
  - apply local_ret.
  - destruct (filter _ _) as [|first rest]; [apply local_ret|].
    apply local_bind.
    + destruct first; [apply local_raise..|apply local_ret].
    + intros t. apply local_bind; [apply local_draw|].
      intros _. apply local_draw.
  - destruct (existsb _ _); [apply local_raise|apply local_ret].
Qed.

Lemma local_model_section (cols : list string) (im : nat) (row : list cell) :
  local (model_section cols im row).
Proof.
  unfold model_section.
  apply local_bind; [apply local_draw|]. intros _.
  apply local_bind; [apply local_or_raise|]. intros t.
  apply local_bind.
  { destruct (shown t); [|apply local_ret].
    apply local_bind; [apply local_draw|]. intros _. apply local_draw. }
  intros _.
  apply local_bind; [apply local_or_raise|]. intros i.
  apply local_bind.
  { destruct (shown i); [|apply local_ret].
    apply local_bind; [apply local_draw|]. intros _. apply local_draw. }
  intros _. apply local_draw.
Qed.

Lemma local_show_verse (data : DataFrame) (ic iv im : nat)
    (sc sv : option Z) (models : list string) :
  local (show_verse data ic iv im sc sv models).
Proof.
  unfold show_verse.
  apply local_bind; [apply local_arabic_header|]. intros _.
  apply local_bind; [apply local_draw|]. intros _.
  apply local_bind; [apply local_or_raise|]. intros shown.
  apply local_for_each. intros r. apply local_model_section.
Qed.

Lemma cached_load_returns (net : network) (files : list string) (s s1 : session)
    (loaded : DataFrame * list string) :
  cache_data (load_from net files) s = (Done loaded, s1) →
  screen s1 = screen s ∧ cache s1 = Some loaded.
Proof.
  unfold cache_data. destruct (cache s) as [v|] eqn:Ec.
  { intros [= <- <-]. done. }
  rewrite load_from_run.
  destruct (tagged net files) as [|df frames]; [done|].
  destruct (normalise_pure (df :: frames) (requested files s)) as (r & -> & _).
  destruct r as [d| |e]; [|done..]. intros [= <- <-]. done.
Qed.

Lemma load_returns (net : network) (s s1 : session)
    (loaded : DataFrame * list string) :
  load_all_data net s = (Done loaded, s1) →
  screen s1 = screen s ∧ cache s1 = Some loaded.
Proof. unfold load_all_data. apply cached_load_returns. Qed.

(** What [main] draws before it loads leaves the session as
    [drawn page_head] does. *)
Lemma head_drawn (s : session) :
  {| requests := requests s;
     screen := ((screen s ++ [PageConfig "LLM Qur'an Translations" "📖" "wide"])
                  ++ [Title "QAHA-Qur'anic Artificial Hermeneutics Archive"])
                 ++ [Markdown introduction false];
     cache := cache s |}
  = drawn page_head s.
Proof. unfold drawn, page_head. simpl. by rewrite <- !app_assoc. Qed.

Lemma join_warnings (errors : list string) :
  mjoin ((λ err, [Warning err]) <$> errors) = Warning <$> errors.
Proof. induction errors as [|x l IH]; csimpl; [done|]. by rewrite IH. Qed.

Lemma warnings_run (errors : list string) (s : session) :
  match errors with
  | [] => mret ()
  | _ =>
      draw (Expander (int_repr (Z.of_nat (length errors))
                        +:+ " model(s) failed to load"));;
      for_each (λ err, draw (Warning err)) errors
  end s
  = (Done (), drawn (load_warnings errors) s).
Proof.
  destruct errors as [|e errors].
  - unfold load_warnings. by rewrite drawn_nil.
  - unfold mbind, script_bind.
    change (draw ?e s) with (Done (), drawn [e] s). cbv iota beta zeta.
    rewrite (for_each_run _ (λ err, [Warning err])) by done.
    rewrite drawn_drawn, join_warnings. reflexivity.
Qed.

(** Lines 103-187 read as one piece of script: everything [main] does
    with what the loader returned. *)
Lemma main_after_load (net : network) (usr : user) (s : session) :
  ∃ view : DataFrame * list string → script (),
    main net usr s = (load_all_data net ≫= view) (drawn page_head s)
    ∧ ∀ data errors,
        ∃ rest : script (),
          local rest
          ∧ ∀ s1, view (data, errors) s1 = rest (drawn (load_warnings errors) s1).
Proof.
  eexists. split.
  - unfold main, mbind at 1 2 3, script_bind at 1 2 3. simpl.
    rewrite head_drawn. reflexivity.
  - intros data errors. simpl. eexists. split; [|intros s1].
    2:{ unfold mbind at 1, script_bind at 1.
        rewrite warnings_run. reflexivity. }
    apply local_bind; [apply local_draw|]. intros _.
    apply local_bind; [apply local_series|]. intros ic.
    apply local_bind; [apply local_or_raise|]. intros chapters.
    apply local_bind; [apply local_selectbox|]. intros sc.
    apply local_bind; [apply local_series|]. intros iv.
    apply local_bind; [apply local_or_raise|]. intros verses.
    apply local_bind; [apply local_selectbox|]. intros sv.
    apply local_bind; [apply local_draw|]. intros _.
    apply local_bind; [apply local_series|]. intros im.
    apply local_bind; [apply local_or_raise|]. intros names.
    apply local_bind; [apply local_checkbox|]. intros select_all.
    apply local_bind.
    { destruct select_all; apply local_multiselect. }
    intros [|m models]; [apply local_draw|apply local_show_verse].
Qed.

End Local.

Section Page.
Context `{Runtime}.

Lemma mapM_omap {A B : Type} (f : A → option B) (l : list A) :
  Forall (λ x, is_Some (f x)) l → mapM f l = Some (omap f l).
Proof.
  intros Hall. apply mapM_Some.
  induction Hall as [|x l [y Hy] _ IH]; csimpl; [constructor|].
  rewrite Hy. by constructor.
Qed.

Lemma bind_run {A B : Type} (m : script A) (f : A → script B) (s : session) :
  (m ≫= f) s
  = match m s with
    | (Done a, s') => f a s'
    | (Stopped, s') => (Stopped, s')
    | (Raised e, s') => (Raised e, s')
    end.
Proof. reflexivity. Qed.

Lemma ret_run {A : Type} (a : A) (s : session) :
  mret (M := script) a s = (Done a, s).
Proof. reflexivity. Qed.

Lemma draw_run (e : element) (s : session) : draw e s = (Done (), drawn [e] s).
Proof. reflexivity. Qed.

(** [main] on a corpus, from the session the loader returned in: the
    warnings and the sidebar are drawn, and the answers of the person
    decide between the prompt and the display of the verse. *)
Lemma main_on_corpus (net : network) (usr : user) (s s1 : session)
    (data : DataFrame) (errors : list string) (ic iv im : nat) :
  load_all_data net (drawn page_head s) = (Done (data, errors), s1) →
  Corpus data ic iv im →
  main net usr s
  = match answered_models usr data im with
    | [] => draw no_selection
    | _ => show_verse data ic iv im (answered_chapter usr data ic)
             (answered_verse usr data ic iv) (answered_models usr data im)
    end (drawn (load_warnings errors ++ sidebar usr data ic iv im) s1).
Proof.
  intros Hload [Hc Hv Hm Htyped].
  unfold main, mbind at 1 2 3, script_bind at 1 2 3. simpl.
  rewrite head_drawn.
  rewrite bind_run, Hload. cbv beta iota.
  rewrite bind_run, warnings_run. cbv beta iota.
  rewrite bind_run, draw_run. cbv beta iota.
  unfold series. rewrite Hc, Hv, Hm.
  unfold mbind at 1, script_bind at 1, mret at 1, script_ret at 1. cbv beta iota.
  rewrite mapM_omap.
  2:{ eapply Forall_impl; [exact Htyped|]. intros r (? & ? & ?). done. }
  unfold or_raise.
  unfold mbind at 1, script_bind at 1, mret at 1, script_ret at 1. cbv beta iota.
  unfold mbind at 1, script_bind at 1, sidebar_selectbox at 1.
  unfold mbind at 1, script_bind at 1, draw at 1, mret at 1, script_ret at 1.
  cbv beta iota.
  unfold mbind at 1, script_bind at 1, mret at 1, script_ret at 1. cbv beta iota.
  rewrite mapM_omap.
  2:{ apply Forall_forall. intros r [_ Hr]%list_elem_of_filter.
      eapply Forall_forall in Htyped as (? & ? & ?); [|exact Hr]. done. }
  unfold mbind at 1, script_bind at 1, mret at 1, script_ret at 1. cbv beta iota.
  unfold mbind at 1, script_bind at 1, sidebar_selectbox at 1.
  unfold mbind at 1, script_bind at 1, draw at 1, mret at 1, script_ret at 1.
  cbv beta iota.
  unfold mbind at 1, script_bind at 1, draw at 1. cbv beta iota.
  unfold mbind at 1, script_bind at 1, mret at 1, script_ret at 1. cbv beta iota.
  rewrite mapM_omap.
  2:{ eapply Forall_impl; [exact Htyped|]. intros r (? & ? & ?). done. }
  unfold mbind at 1, script_bind at 1, mret at 1, script_ret at 1. cbv beta iota.
  unfold mbind at 1, script_bind at 1, sidebar_checkbox at 1.
  unfold mbind at 1, script_bind at 1, draw at 1, mret at 1, script_ret at 1.
  cbv beta iota.
  unfold sidebar, answered_models, answered_verse, answered_chapter,
    offered_default, models_of, verses_of, chapters_of, chapter, verse, model.
  destruct (checkbox usr "Select all models" true);
    unfold mbind at 1, script_bind at 1, sidebar_multiselect at 1;
    unfold mbind at 1, script_bind at 1, draw at 1, mret at 1, script_ret at 1;
    cbv beta iota; f_equal; unfold drawn; simpl;
    rewrite <- !app_assoc; reflexivity.
Qed.

(** X10. Lines 100-106: whenever the loader returns, [main] goes on under the
    page head with the report of the load, an expander that counts the
    resources that failed and one warning for each of them in the order of
    the report, or nothing when all loaded; whatever [main] does next
    comes after it. *)
Theorem load_report_is_shown (net : network) (usr : user) (s s1 s' : session)
    (data : DataFrame) (errors : list string) (out : outcome ()) :
  load_all_data net (drawn page_head s) = (Done (data, errors), s1) →
  main net usr s = (out, s') →
  ∃ page,
    screen s' = screen s ++ page_head ++ load_warnings errors ++ page
    ∧ (errors = [] → load_warnings errors = [])
    ∧ (errors ≠ [] →
       load_warnings errors
       = Expander (int_repr (Z.of_nat (length errors)) +:+ " model(s) failed to load")
         :: (Warning <$> errors)).
Proof.
  intros Hload.
  destruct (main_after_load net usr s) as (view & -> & Hview).
  rewrite bind_run, Hload.
  destruct (Hview data errors) as (rest & Hlocal & ->).
  intros (_ & _ & page & Hpage)%Hlocal.
  apply load_returns in Hload as [Hscreen _].
  exists page. split.
  - rewrite Hpage. unfold drawn. simpl. rewrite Hscreen. simpl.
    by rewrite <- !app_assoc.
  - split; [by intros ->|]. by destruct errors.
Qed.

(** X11. A run of [main] in a session whose cache is filled sends no request
    and leaves the cache as it is: the script can be run again on every
    interaction without fetching anything, and nothing the view does
    changes the corpus it was handed. *)
Theorem rerun_sends_no_request (net : network) (usr : user) (s s' : session)
    (loaded : DataFrame * list string) (out : outcome ()) :
  cache s = Some loaded →
  main net usr s = (out, s') →
  requests s' = requests s ∧ cache s' = Some loaded.
Proof.
  intros Hcache.
  destruct (main_after_load net usr s) as (view & -> & Hview).
  rewrite bind_run.
  assert (load_all_data net (drawn page_head s) = (Done loaded, drawn page_head s))
    as ->.
  { unfold load_all_data, cache_data.
    change (cache (drawn page_head s)) with (cache s). by rewrite Hcache. }
  destruct loaded as [data errors].
  destruct (Hview data errors) as (rest & Hlocal & ->).
  intros (Hrequests & Hsame & _)%Hlocal. simpl in *. by rewrite Hsame.
Qed.

(** X12. Whatever a run of [main] ends with, it has sent no request when the
    cache is filled, and otherwise one request for every file of the list,
    in the order of the list, and no other: nothing is requested twice,
    nothing is retried, and the view requests nothing. *)
Theorem a_run_requests_each_file_at_most_once (net : network) (usr : user)
    (s : session) :
  requests (main net usr s).2
  = requests s ++ match cache s with
                  | Some _ => []
                  | None => url_of <$> CSV_FILES
                  end.
Proof.
  destruct (main_after_load net usr s) as (view & -> & Hview).
  rewrite bind_run.
  destruct (load_all_data net (drawn page_head s)) as [out s1] eqn:Hload.
  assert (requests s1
          = requests s ++ match cache s with
                          | Some _ => []
                          | None => url_of <$> CSV_FILES
                          end) as Hsent.
  { revert Hload. unfold load_all_data. generalize CSV_FILES. intros files Hload.
    destruct (cache s) as [v|] eqn:Ec.
    - revert Hload. unfold cache_data.
      change (cache (drawn page_head s)) with (cache s). rewrite Ec.
      intros [= <- <-]. simpl. by rewrite app_nil_r.
    - by apply cached_load_requests in Hload as [-> _]. }
  destruct out as [[data errors]| |e]; [|done..].
  destruct (Hview data errors) as (rest & Hlocal & ->).
  destruct (rest (drawn (load_warnings errors) s1)) as [out' s'] eqn:Hrest.
  apply Hlocal in Hrest as (Hrequests & _). simpl in *. by rewrite Hrequests.
Qed.

(** X13. [main] catches nothing: when the loader raises, [main] ends with the
    same exception, the page holds the page head and nothing else, every
    file has been requested and nothing is cached. *)
Theorem load_exception_ends_the_run (net : network) (usr : user)
    (s s1 : session) (e : exn) :
  load_all_data net (drawn page_head s) = (Raised e, s1) →
  main net usr s = (Raised e, s1)
  ∧ screen s1 = screen s ++ page_head
  ∧ requests s1 = requests s ++ (url_of <$> CSV_FILES)
  ∧ cache s1 = None.
Proof.
  intros Hload. split.
  - destruct (main_after_load net usr s) as (view & -> & _).
    by rewrite bind_run, Hload.
  - revert Hload. unfold load_all_data. generalize CSV_FILES. intros files.
    unfold cache_data.
    change (cache (drawn page_head s)) with (cache s).
    destruct (cache s) as [v|] eqn:Ec; [done|].
    rewrite load_from_run.
    destruct (tagged net files) as [|df frames]; [done|].
    destruct (normalise_pure (df :: frames) (requested files (drawn page_head s)))
      as (r & -> & _).
    destruct r as [d| |e']; [done..|]. intros [= <- <-]. simpl. done.
Qed.

#[local] Existing Instance by_text_total.
#[local] Existing Instance by_text_transitive.

Lemma sort_values_text (i : nat) (df : DataFrame) :
  Forall (λ r, is_Some (model i r)) (rows df) →
  ∃ shown,
    sort_values i df = Some shown
    ∧ columns shown = columns df
    ∧ rows shown ≡ₚ rows df
    ∧ StronglySorted (by_model i) (rows shown).
Proof.
  intros Htext. unfold sort_values.
  match goal with
  | |- context [forallb ?f ?l] => assert (forallb f l = true) as ->
  end.
  { apply Is_true_true, forallb_True.
    eapply Forall_impl; [exact Htext|]. intros r Hr. by apply bool_decide_pack. }
  eexists. split; [reflexivity|]. simpl.
  split; [done|]. split; [apply insertion_sort_Permutation|].
  eapply (strongly_sorted_on (by_text i) _ (λ r, is_Some (model i r))).
  - intros r1 r2 [m1 E1] [m2 E2]. unfold by_text, by_model, model in *.
    rewrite E1, E2. simpl. eauto.
  - by rewrite insertion_sort_Permutation.
  - apply insertion_sort_sorted; apply _.
Qed.

(** X14. [main] from end to end on a corpus.  When the loader returns a corpus,
    the person selects at least one model, the labels [translation] and
    [interpretation] are not repeated and the header ends with [header]
    drawn, [main] runs to its end and the page is, after the page head:
    the report of the load, the sidebar with its three choice sets, the
    header, the heading of the verse, and the sections of the selected
    records in ascending order of the model names. *)
Theorem page_of_a_verse (net : network) (usr : user) (s s1 : session)
    (data : DataFrame) (errors : list string) (ic iv im : nat)
    (header : list element) :
  load_all_data net (drawn page_head s) = (Done (data, errors), s1) →
  Corpus data ic iv im →
  answered_models usr data im ≠ [] →
  (∀ at_, locate "translation" (columns data) ≠ Several at_) →
  (∀ at_, locate "interpretation" (columns data) ≠ Several at_) →
  arabic_header
    (verse_data data ic iv im (answered_chapter usr data ic)
       (answered_verse usr data ic iv) (answered_models usr data im))
    (drawn (load_warnings errors ++ sidebar usr data ic iv im) s1)
  = (Done (),
     drawn header (drawn (load_warnings errors ++ sidebar usr data ic iv im) s1)) →
  ∃ shown,
    rows shown
      ≡ₚ rows (verse_data data ic iv im (answered_chapter usr data ic)
                 (answered_verse usr data ic iv) (answered_models usr data im))
    ∧ StronglySorted (by_model im) (rows shown)
    ∧ main net usr s
      = (Done (),
         drawn (load_warnings errors ++ sidebar usr data ic iv im ++ header
                  ++ verse_heading (answered_chapter usr data ic)
                       (answered_verse usr data ic iv)
                     :: mjoin (section_of (columns data) im <$> rows shown))
           s1).
Proof.
  intros Hload Hcorpus Hsome Ht Hi Hheader.
  rewrite (main_on_corpus _ _ _ _ _ _ _ _ _ Hload Hcorpus).
  destruct Hcorpus as [_ _ _ Htyped].
  destruct (sort_values_text im
              (verse_data data ic iv im (answered_chapter usr data ic)
                 (answered_verse usr data ic iv) (answered_models usr data im)))
    as (shown & Hsort & Hcols & Hperm & Hsorted).
  { apply Forall_forall. intros r [_ Hr]%list_elem_of_filter.
    eapply Forall_forall in Htyped as (_ & _ & ?); [|exact Hr]. done. }
  exists shown. split; [done|]. split; [done|].
  destruct (answered_models usr data im) as [|m models] eqn:Hmodels; [done|].
  unfold show_verse. rewrite bind_run, Hheader. cbv beta iota.
  rewrite bind_run, draw_run. cbv beta iota.
  rewrite Hsort. unfold or_raise. rewrite bind_run, ret_run. cbv beta iota.
  rewrite Hcols. change (columns (verse_data _ _ _ _ _ _ _)) with (columns data).
  rewrite (for_each_run _ (section_of (columns data) im))
    by (intros; by apply model_section_run).
  f_equal. unfold drawn, verse_heading. simpl.
  f_equal. by rewrite <- !app_assoc.
Qed.

(** X15. A corpus without rows, which is what the loader returns when no row
    has a readable chapter and verse: the three choice sets are empty, a
    multi-select that answers with options it was given has nothing to
    answer with, and [main] ends on the prompt for a selection. *)
Theorem empty_corpus_prompts (net : network) (usr : user) (s s1 : session)
    (data : DataFrame) (errors : list string) (ic iv im : nat) :
  load_all_data net (drawn page_head s) = (Done (data, errors), s1) →
  Corpus data ic iv im →
  rows data = [] →
  answered_models usr data im ⊆ models_of data im →
  chapters_of data ic = []
  ∧ verses_of data ic iv (answered_chapter usr data ic) = []
  ∧ models_of data im = []
  ∧ main net usr s
    = (Done (),
       drawn (load_warnings errors ++ sidebar usr data ic iv im ++ [no_selection])
         s1).
Proof.
  intros Hload Hcorpus Hrows Hwidget.
  assert (models_of data im = []) as Hmodels.
  { unfold models_of. by rewrite Hrows. }
  split; [unfold chapters_of; by rewrite Hrows|].
  split; [unfold verses_of; by rewrite Hrows|]. split; [done|].
  rewrite (main_on_corpus _ _ _ _ _ _ _ _ _ Hload Hcorpus).
  assert (answered_models usr data im = []) as ->.
  { rewrite Hmodels in Hwidget.
    destruct (answered_models usr data im) as [|m l]; [done|].
    destruct (not_elem_of_nil m). apply Hwidget. left. }
  rewrite draw_run, drawn_drawn. by rewrite <- app_assoc.
Qed.

End Page.

Section Prompt.
Context `{Runtime}.

(** C7. When the selection of models is empty, [main] draws the prompt
    for a selection and ends.  Whatever the run ends with, nothing of a
    verse is on the page beyond the introduction, neither header nor
    heading nor section, and a run that reaches its end has drawn the
    prompt last.  On a corpus the loader returned the run does reach its
    end: [main] returns, the page holding the report of the load, the
    sidebar and the prompt, and nothing after it. *)
Theorem empty_selection_prompts (net : network) (usr : user) (s : session) :
  (∀ options default, multiselect usr "Models" options default = []) →
  (∀ out s', main net usr s = (out, s') →
     ∃ page,
       screen s' = screen s ++ page_head ++ page
       ∧ Forall (λ e, ¬ verse_output e) page
       ∧ (out = Done () → ∃ before, page = before ++ [no_selection]))
  ∧ (∀ data errors s1 ic iv im,
       load_all_data net (drawn page_head s) = (Done (data, errors), s1) →
       Corpus data ic iv im →
       main net usr s
       = (Done (),
          drawn (load_warnings errors ++ sidebar usr data ic iv im
                   ++ [no_selection]) s1)).
Proof.
  intros Hnone. split.
  - intros out s'. by apply main_prompts.
  - intros data errors s1 ic iv im Hload Hcorpus.
    rewrite (main_on_corpus _ _ _ _ _ _ _ _ _ Hload Hcorpus).
    unfold answered_models at 1. rewrite Hnone.
    rewrite draw_run, drawn_drawn. by rewrite <- app_assoc.
Qed.

End Prompt.

(** ** Worked examples

    The program run on the worked inputs, with the ASCII runtime. *)

Section Worked.
#[local] Existing Instance Ascii_runtime.runtime.

Example two_models_load :
  load_all_data two_models fresh
  = (Done (two_models_corpus, report two_models CSV_FILES),
     {| requests := url_of <$> CSV_FILES;
        screen := [];
        cache := Some (two_models_corpus, report two_models CSV_FILES) |}).
Proof. vm_compute. reflexivity. Qed.

(** The example of the specification: two sections in the order of the
    model names, one with the translation alone, one with the
    interpretation alone, under one shared header. *)
Example two_models_page :
  drop 17 (screen (main two_models by_default fresh).2)
  = [SidebarHeader "Select verse";
     SidebarSelectbox "Chapter (Surah)" ["Surah 1"];
     SidebarSelectbox "Verse (Ayah)" ["Ayah 1"];
     SidebarHeader "Select models";
     SidebarCheckbox "Select all models" true;
     SidebarMultiselect "Models" ["Claude Opus"; "GPT-3"] ["Claude Opus"; "GPT-3"];
     Markdown (arabic_paragraph "x") true;
     Markdown "---" false;
     Subheader "Surah 1, Ayah 1";
     Markdown "### Claude Opus" false;
     Markdown "**Translation**" false;
     Markdown "> alpha" false;
     Markdown "---" false;
     Markdown "### GPT-3" false;
     Markdown "**Interpretation**" false;
     Markdown "beta" false;
     Markdown "---" false].
Proof. vm_compute. reflexivity. Qed.

Lemma two_models_is_a_corpus : Corpus two_models_corpus 0 1 4.
Proof.
  split; [reflexivity..|].
  repeat (apply List.Forall_cons; [by repeat split; eexists|]).
  apply List.Forall_nil.
Defined.

Lemma selection_witness :
  ∃ shown,
    sort_values 4 (verse_data two_models_corpus 0 1 4 (Some 1%Z) (Some 1%Z)
                     ["GPT-3"; "Claude Opus"])
      = Some shown
    ∧ columns shown = columns two_models_corpus
    ∧ rows shown
      ≡ₚ filter (selected 0 1 4 1 1 ["GPT-3"; "Claude Opus"])
           (rows two_models_corpus)
    ∧ (∀ r, r ∈ rows shown ↔
            r ∈ rows two_models_corpus
            ∧ selected 0 1 4 1 1 ["GPT-3"; "Claude Opus"] r)
    ∧ StronglySorted (by_model 4) (rows shown).
Proof.
  apply (selection_is_exact_and_sorted two_models_corpus 0 1 4 1 1
           ["GPT-3"; "Claude Opus"]).
  - exact two_models_is_a_corpus.
  - discriminate.
Defined.


Lemma no_data_witness :
  load_all_data offline fresh
    = (Stopped, drawn [no_data] (requested CSV_FILES fresh))
  ∧ main offline by_default fresh
    = (Stopped, drawn (page_head ++ [no_data]) (requested CSV_FILES fresh))
  ∧ cache (drawn (page_head ++ [no_data]) (requested CSV_FILES fresh)) = None.
Proof.
  apply (no_data_halts offline by_default fresh).
  - reflexivity.
  - intros f _. eexists. reflexivity.
Defined.

Lemma empty_selection_witness :
  main two_models deselecting fresh
    = (Done (),
       drawn (load_warnings (report two_models CSV_FILES)
                ++ sidebar deselecting two_models_corpus 0 1 4
                ++ [no_selection])
         (load_all_data two_models (drawn page_head fresh)).2)
  ∧ ∃ page,
      screen (main two_models deselecting fresh).2
        = screen fresh ++ page_head ++ page
      ∧ Forall (λ e, ¬ verse_output e) page
      ∧ ((main two_models deselecting fresh).1 = Done () →
         ∃ before, page = before ++ [no_selection]).
Proof.
  destruct (empty_selection_prompts two_models deselecting fresh)
    as [Hany Hreturns]; [reflexivity|].
  split.
  - apply (Hreturns two_models_corpus (report two_models CSV_FILES)).
    + vm_compute. reflexivity.
    + exact two_models_is_a_corpus.
  - apply (Hany (main two_models deselecting fresh).1
                (main two_models deselecting fresh).2).
    apply surjective_pairing.
Defined.

Lemma sections_witness :
  for_each (model_section (columns two_models_corpus) 4)
    (rows two_models_corpus) fresh
  = (Done (),
     drawn [Markdown "### Claude Opus" false;
            Markdown "**Translation**" false;
            Markdown "> alpha" false;
            Markdown "---" false;
            Markdown "### GPT-3" false;
            Markdown "**Interpretation**" false;
            Markdown "beta" false;
            Markdown "---" false] fresh).
Proof.
  destruct (sections_follow_the_fields (columns two_models_corpus) 4
              (rows two_models_corpus) fresh) as [Hloop _].
  - intros at_. discriminate.
  - intros at_. discriminate.
  - exact Hloop.
Defined.

Lemma second_load_witness :
  load_all_data two_models fresh
    = (Done (two_models_corpus, report two_models CSV_FILES),
       {| requests := url_of <$> CSV_FILES;
          screen := [];
          cache := Some (two_models_corpus, report two_models CSV_FILES) |})
  ∧ load_all_data offline
      {| requests := url_of <$> CSV_FILES;
         screen := page_head;
         cache := Some (two_models_corpus, report two_models CSV_FILES) |}
    = (Done (two_models_corpus, report two_models CSV_FILES),
       {| requests := url_of <$> CSV_FILES;
          screen := page_head;
          cache := Some (two_models_corpus, report two_models CSV_FILES) |}).
Proof.
  split; [exact two_models_load|].
  destruct (second_load_is_served_from_the_cache two_models offline fresh _ _
              two_models_load) as [_ Hlater].
  apply Hlater. reflexivity.
Defined.

(** The header of the page is the original of the resource that comes
    first in the file list, Grok 2, while the first section, and so the
    first original in the order of the model names, is that of Gemini 1.5
    Flash. *)
Lemma header_follows_the_file_list :
  (load_all_data two_originals fresh).1
    = Done (two_originals_corpus, report two_originals CSV_FILES)
  ∧ drop 23 (screen (main two_originals by_default fresh).2)
    = [Markdown (arabic_paragraph "from Grok") true;
       Markdown "---" false;
       Subheader "Surah 1, Ayah 1";
       Markdown "### Gemini 1.5 Flash" false;
       Markdown "**Translation**" false;
       Markdown "> beta" false;
       Markdown "---" false;
       Markdown "### Grok 2" false;
       Markdown "**Translation**" false;
       Markdown "> alpha" false;
       Markdown "---" false]
  ∧ ∃ shown,
      sort_values 4 (verse_data two_originals_corpus 0 1 4 (Some 1%Z) (Some 1%Z)
                       ["Gemini 1.5 Flash"; "Grok 2"])
        = Some shown
      ∧ head (filter (λ c, notna c) (cell_at 2 <$> rows shown))
        = Some (Str "from Gemini").
Proof.
  split; [vm_compute; reflexivity|]. split; [vm_compute; reflexivity|].
  eexists. split; vm_compute; reflexivity.
Qed.

Lemma header_witness :
  rows (verse_data two_originals_corpus 0 1 4 (Some 1%Z) (Some 1%Z)
          ["Gemini 1.5 Flash"; "Grok 2"])
    = [] ++ [Num (Int 1); Num (Int 1); Str "from Grok"; Str "alpha"; Str "Grok 2"]
         :: [[Num (Int 1); Num (Int 1); Str "from Gemini"; Str "beta";
              Str "Gemini 1.5 Flash"]]
  ∧ arabic_header
      (verse_data two_originals_corpus 0 1 4 (Some 1%Z) (Some 1%Z)
         ["Gemini 1.5 Flash"; "Grok 2"]) fresh
    = (Done (), drawn (header_of "from Grok") fresh).
Proof.
  split; [reflexivity|].
  destruct (header_is_first_original_in_table_order two_originals_corpus
              0 1 4 (Some 1%Z) (Some 1%Z) ["Gemini 1.5 Flash"; "Grok 2"] fresh)
    as [_ Hsingle].
  destruct (Hsingle 2 eq_refl) as [_ Hfirst].
  destruct (Hfirst [] _ _ "from Grok" eq_refl (List.Forall_nil _) eq_refl)
    as [Hheader _].
  exact Hheader.
Defined.

(** A chapter numbered zero, and a verse numbered below zero, pass the
    normalisation and stay in the corpus. *)
Lemma chapter_zero_is_kept :
  (load_all_data zero_based fresh).1
    = Done (zero_based_corpus, report zero_based CSV_FILES)
  ∧ locate "chapter" (columns zero_based_corpus) = Single 0
  ∧ locate "verse" (columns zero_based_corpus) = Single 1
  ∧ ¬ numbered_from_one zero_based_corpus 0 1.
Proof.
  split; [vm_compute; reflexivity|]. split; [reflexivity|]. split; [reflexivity|].
  intros Hall. apply Forall_cons in Hall as [(c & v & Hc & _ & Hpos & _) _].
  injection Hc as <-. lia.
Qed.


Lemma integers_witness :
  load_from textual CSV_FILES fresh
    = (Done (textual_corpus, report textual CSV_FILES), requested CSV_FILES fresh)
  ∧ ∃ ic iv,
      locate "chapter" (columns textual_corpus) = Single ic
      ∧ locate "verse" (columns textual_corpus) = Single iv
      ∧ Forall (λ r', ∃ c v, chapter ic r' = Some c ∧ verse iv r' = Some v
                             ∧ int64 c ∧ int64 v)
          (rows textual_corpus).
Proof.
  assert (load_from textual CSV_FILES fresh
          = (Done (textual_corpus, report textual CSV_FILES),
             requested CSV_FILES fresh)) as Hload.
  { vm_compute. reflexivity. }
  split; [exact Hload|].
  destruct (loaded_rows_are_integers textual CSV_FILES fresh) as [Hdone _].
  destruct (Hdone _ _ _ Hload) as (ic & iv & Hc & Hv & Hints & _).
  exists ic, iv. auto.
Defined.

Lemma textual_is_finite :
  Forall (λ r, numbered 0 1 r = true →
               finite (cell_at 0 r) = true ∧ finite (cell_at 1 r) = true)
    (rows (merged textual CSV_FILES)).
Proof.
  assert (rows (merged textual CSV_FILES)
          = [[Str "1.9"; Num (Int 2); Str "x"; Str "Mixtral"];
             [Str "one"; Num (Int 3); Str "y"; Str "Mixtral"];
             [Str "-2.5"; Num (Int 4); Str "z"; Str "Mixtral"]]) as ->.
  { vm_compute. reflexivity. }
  repeat (apply List.Forall_cons; [intros _; split; reflexivity|]).
  apply List.Forall_nil.
Defined.

Lemma fractions_witness :
  parse_numeric "1.9" = Some (Float (19 # 10))
  ∧ ∃ data,
      load_from textual CSV_FILES fresh
        = (Done (data, report textual CSV_FILES), requested CSV_FILES fresh)
      ∧ ∃ r' rest, rows data = r' :: rest ∧ chapter 0 r' = Some 1%Z.
Proof.
  split; [reflexivity|].
  destruct (fractions_are_truncated textual CSV_FILES fresh 0 1)
    as (data & Hload & Hrows & _).
  - vm_compute. discriminate.
  - vm_compute. reflexivity.
  - vm_compute. reflexivity.
  - exact textual_is_finite.
  - exists data. split; [exact Hload|].
    assert (filter (λ r, numbered 0 1 r) (rows (merged textual CSV_FILES))
            = [[Str "1.9"; Num (Int 2); Str "x"; Str "Mixtral"];
               [Str "-2.5"; Num (Int 4); Str "z"; Str "Mixtral"]]) as Hkept.
    { vm_compute. reflexivity. }
    rewrite Hkept in Hrows.
    inversion Hrows as [|r r' l rest [Hchapter _] _]. subst.
    exists r', rest. split; [reflexivity|].
    apply (Hchapter (19 # 10)); [reflexivity|].
    unfold int64. vm_compute. split; [discriminate|reflexivity].
Defined.

(** An infinite chapter reads as a number that is no integer, and its
    row is not kept: the cast raises and no corpus is returned. *)
Lemma infinite_chapter_ends_the_load :
  to_numeric (Num (Inf false)) = Num (Inf false)
  ∧ [Num (Inf false); Num (Int 2); Str "y"; Str "Llama 3"]
      ∈ rows (merged unbounded CSV_FILES)
  ∧ load_from unbounded CSV_FILES fresh
    = (Raised IntCastingNaNError, requested CSV_FILES fresh)
  ∧ load_all_data unbounded fresh
    = (Raised IntCastingNaNError, requested CSV_FILES fresh).
Proof.
  split; [reflexivity|]. split; [vm_compute; right; left|].
  split; vm_compute; reflexivity.
Qed.

(** C8, where the code departs from it.  One resource spells the header
    of the translation with a capital and one without: the corpus has two
    columns labelled [translation], and [main] raises in the first
    section, after its heading, where the specification has a section for
    every record. *)
Lemma repeated_translation_label_raises :
  (load_all_data two_translations fresh).1
    = Done (two_translations_corpus, report two_translations CSV_FILES)
  ∧ locate "translation" (columns two_translations_corpus) = Several [3; 5]
  ∧ (main two_translations by_default fresh).1 = Raised ValueError
  ∧ drop 25 (screen (main two_translations by_default fresh).2)
    = [Subheader "Surah 1, Ayah 1"; Markdown "### Claude Opus" false].
Proof. repeat split; vm_compute; reflexivity. Qed.

(** C4, where the code departs from it.  Two resources whose headers
    agree once trimmed and lower-cased, one capitalised and one not: the
    labels are normalised after the merge, the merged table has two
    columns labelled [chapter], and the loader raises, where the
    specification has the two resources in the same columns of the corpus. *)
Lemma headers_in_two_cases_raise :
  (λ c, lower (strip c)) <$> columns table_alpha
    = (λ c, lower (strip c)) <$> ["Chapter"; "Verse"; "Orig"; "Translation"]
  ∧ (λ c, lower (strip c)) <$> ["Chapter"; "Verse"; "Orig"; "Translation"]
    = columns table_lower
  ∧ load_all_data mixed_case fresh = (Raised TypeError, requested CSV_FILES fresh).
Proof. repeat split; vm_compute; reflexivity. Qed.

Lemma key_error_witness :
  load_from relabelled CSV_FILES fresh
  = (Raised (KeyError "chapter"), requested CSV_FILES fresh).
Proof.
  apply (missing_column_raises_key_error relabelled CSV_FILES fresh).
  - vm_compute. discriminate.
  - apply (bool_decide_unpack _). vm_compute. exact I.
Defined.

Lemma infinite_witness :
  load_from unbounded CSV_FILES fresh
  = (Raised IntCastingNaNError, requested CSV_FILES fresh).
Proof.
  apply (infinite_value_raises unbounded CSV_FILES fresh 0 1
           [Num (Inf false); Num (Int 2); Str "y"; Str "Llama 3"]).
  - vm_compute. reflexivity.
  - vm_compute. reflexivity.
  - vm_compute. right. left.
  - discriminate.
  - discriminate.
  - left. exists false. reflexivity.
Defined.

Lemma untouched_witness :
  load_from textual CSV_FILES fresh
    = (Done (textual_corpus, report textual CSV_FILES), requested CSV_FILES fresh)
  ∧ ∃ ic iv,
      locate "chapter" (columns textual_corpus) = Single ic
      ∧ locate "verse" (columns textual_corpus) = Single iv
      ∧ Forall2 (λ r r', length r' = length r
                         ∧ ∀ j, j ≠ ic → j ≠ iv → cell_at j r' = cell_at j r)
          (filter (λ r, notna (to_numeric (cell_at ic r))
                        && notna (to_numeric (cell_at iv r)))
             (rows (merged textual CSV_FILES)))
          (rows textual_corpus).
Proof.
  assert (load_from textual CSV_FILES fresh
          = (Done (textual_corpus, report textual CSV_FILES),
             requested CSV_FILES fresh)) as Hload.
  { vm_compute. reflexivity. }
  split; [exact Hload|].
  apply (other_columns_are_untouched textual CSV_FILES fresh _ _ _ Hload).
Defined.

Lemma retry_witness :
  cache (load_all_data offline fresh).2 = None
  ∧ requests (load_all_data two_models (load_all_data offline fresh).2).2
    = requests fresh ++ (url_of <$> CSV_FILES) ++ (url_of <$> CSV_FILES).
Proof.
  apply (failed_load_is_not_cached offline two_models fresh
           (load_all_data offline fresh).2 (load_all_data offline fresh).1).
  - reflexivity.
  - apply surjective_pairing.
  - intros loaded Hdone. vm_compute in Hdone. discriminate.
Defined.

Lemma offered_witness :
  ∃ r, r ∈ rows (verse_data two_models_corpus 0 1 4 (Some 1%Z) (Some 1%Z)
                   ["Claude Opus"; "GPT-3"])
       ∧ chapter 0 r = Some 1%Z ∧ verse 1 r = Some 1%Z.
Proof.
  destruct (offered_verse_has_a_record two_models_corpus 0 1 4 1 1
              ["Claude Opus"; "GPT-3"] two_models_is_a_corpus)
    as [_ Hselected].
  apply Hselected.
  - vm_compute. left.
  - intros m Hm. vm_compute in Hm. exact Hm.
Defined.

Lemma report_witness :
  length (report two_models CSV_FILES) = 13
  ∧ ∃ page,
      screen (main two_models by_default fresh).2
      = screen fresh ++ page_head
          ++ load_warnings (report two_models CSV_FILES) ++ page
      ∧ (report two_models CSV_FILES = [] →
         load_warnings (report two_models CSV_FILES) = [])
      ∧ (report two_models CSV_FILES ≠ [] →
         load_warnings (report two_models CSV_FILES)
         = Expander (int_repr (Z.of_nat (length (report two_models CSV_FILES)))
                       +:+ " model(s) failed to load")
           :: (Warning <$> report two_models CSV_FILES)).
Proof.
  split; [reflexivity|].
  apply (load_report_is_shown two_models by_default fresh
           (load_all_data two_models (drawn page_head fresh)).2
           (main two_models by_default fresh).2 two_models_corpus
           (report two_models CSV_FILES) (main two_models by_default fresh).1).
  - vm_compute. reflexivity.
  - apply surjective_pairing.
Defined.

Lemma rerun_witness :
  requests (main offline by_default revisited).2 = requests revisited
  ∧ cache (main offline by_default revisited).2 = Some (two_models_corpus, []).
Proof.
  apply (rerun_sends_no_request offline by_default revisited
           (main offline by_default revisited).2 (two_models_corpus, [])
           (main offline by_default revisited).1).
  - reflexivity.
  - apply surjective_pairing.
Defined.

Lemma load_exception_witness :
  main relabelled by_default fresh
    = (Raised (KeyError "chapter"),
       requested CSV_FILES (drawn page_head fresh))
  ∧ screen (requested CSV_FILES (drawn page_head fresh))
    = screen fresh ++ page_head
  ∧ requests (requested CSV_FILES (drawn page_head fresh))
    = requests fresh ++ (url_of <$> CSV_FILES)
  ∧ cache (requested CSV_FILES (drawn page_head fresh)) = None.
Proof.
  apply (load_exception_ends_the_run relabelled by_default fresh).
  vm_compute. reflexivity.
Defined.

Lemma page_witness :
  ∃ shown,
    rows shown
      ≡ₚ rows (verse_data two_models_corpus 0 1 4
                 (answered_chapter by_default two_models_corpus 0)
                 (answered_verse by_default two_models_corpus 0 1)
                 (answered_models by_default two_models_corpus 4))
    ∧ StronglySorted (by_model 4) (rows shown)
    ∧ main two_models by_default fresh
      = (Done (),
         drawn (load_warnings (report two_models CSV_FILES)
                  ++ sidebar by_default two_models_corpus 0 1 4
                  ++ header_of "x"
                  ++ verse_heading (answered_chapter by_default two_models_corpus 0)
                       (answered_verse by_default two_models_corpus 0 1)
                     :: mjoin (section_of (columns two_models_corpus) 4
                                 <$> rows shown))
           (load_all_data two_models (drawn page_head fresh)).2).
Proof.
  apply (page_of_a_verse two_models by_default fresh
           (load_all_data two_models (drawn page_head fresh)).2
           two_models_corpus (report two_models CSV_FILES) 0 1 4 (header_of "x")).
  - vm_compute. reflexivity.
  - exact two_models_is_a_corpus.
  - vm_compute. discriminate.
  - intros at_. vm_compute. discriminate.
  - intros at_. vm_compute. discriminate.
  - vm_compute. reflexivity.
Defined.

Lemma unnumbered_is_a_corpus : Corpus unnumbered_corpus 0 1 3.
Proof. split; [reflexivity..|]. apply List.Forall_nil. Defined.

Lemma empty_corpus_witness :
  chapters_of unnumbered_corpus 0 = []
  ∧ verses_of unnumbered_corpus 0 1 (answered_chapter by_default unnumbered_corpus 0)
    = []
  ∧ models_of unnumbered_corpus 3 = []
  ∧ main unnumbered by_default fresh
    = (Done (),
       drawn (load_warnings (report unnumbered CSV_FILES)
                ++ sidebar by_default unnumbered_corpus 0 1 3 ++ [no_selection])
         (load_all_data unnumbered (drawn page_head fresh)).2).
Proof.
  apply (empty_corpus_prompts unnumbered by_default fresh
           (load_all_data unnumbered (drawn page_head fresh)).2
           unnumbered_corpus (report unnumbered CSV_FILES) 0 1 3).
  - vm_compute. reflexivity.
  - exact unnumbered_is_a_corpus.
  - reflexivity.
  - vm_compute. intros m Hm. exact Hm.
Defined.

Lemma loaded_models_witness :
  Forall (λ r, ∃ f df, f ∈ CSV_FILES ∧ two_models (url_of f) = Parsed df
                       ∧ model 4 r = Some (display_name_of f))
    (rows two_models_corpus).
Proof.
  apply (models_are_those_of_loaded_resources two_models CSV_FILES fresh
           (requested CSV_FILES fresh) two_models_corpus
           (report two_models CSV_FILES) 4).
  - intros url df. unfold two_models, serve. simpl.
    repeat case_decide; simpl; intros [= <-];
      repeat (apply List.Forall_cons; [reflexivity|]); apply List.Forall_nil.
  - reflexivity.
  - vm_compute. reflexivity.
  - reflexivity.
Defined.

End Worked.
